(** * fresh_news_2: the AP News collection engine (collectors.py)

    A shallow embedding of [collectors.py]: the [News] item extractor
    (bounded-retry field readers, the phrase counter, the money detector)
    and the [APNewsCollector] engine (constructor normalisation, the
    category filter loop and the fault-budgeted pagination loop).

    The browser, the calendar, the clock and the Unicode tables are external
    collaborators: they appear as records of oracles ([Browser], [Env]) and
    as scripted answers of the DOM ([WebElement]).  Python's built-ins used
    by the code ([str.count], [str.split], [re.search], string comparison,
    [sha1]) are modelled from their documented behaviour.  A collaborator
    call made inside a [try] either returns or raises one of the Selenium
    exceptions that [try] catches; outside a [try], the two calls whose
    failure the code does not catch (waiting for an element, unpacking the
    page counts) end the run as [Raised]. *)

From Stdlib Require Import ZArith NArith List Bool Lia Ascii String DecimalString.
From Stdlib.Strings Require Import Byte.
From stdpp Require Import base gmap.
Import ListNotations.

Set Implicit Arguments.

(* ===================================================================== *)
(** * Python strings *)
(* ===================================================================== *)

(** A Python [str] is a sequence of Unicode code points. *)
Definition str := list N.

(** ASCII literals of the source, as code points. *)
Definition u (s : string) : str := map N_of_ascii (list_ascii_of_string s).

Module PyStr.

(** [bool(s)]: a string is truthy iff it is not empty. *)
Definition truthy (s : str) : bool :=
  match s with [] => false | _ :: _ => true end.

(** [s.startswith(sub)], the test [str.count] makes at each position. *)
Fixpoint startswith (sub s : str) : bool :=
  match sub, s with
  | [], _ => true
  | _ :: _, [] => false
  | a :: sub', b :: s' => (a =? b)%N && startswith sub' s'
  end.

(** The left-to-right scan of [str.count] for a non-empty [sub]: [skip] is
    the number of characters still covered by the last occurrence found. *)
Fixpoint count_scan (sub s : str) (skip : nat) : nat :=
  match s with
  | [] => 0
  | _ :: s' =>
    match skip with
    | S k => count_scan sub s' k
    | O =>
      if startswith sub s
      then S (count_scan sub s' (length sub - 1))
      else count_scan sub s' 0
    end
  end.

(** [s.count(sub)]; CPython answers [len(s) + 1] for the empty [sub]. *)
Definition count (s sub : str) : Z :=
  match sub with
  | [] => Z.of_nat (length s) + 1
  | _ :: _ => Z.of_nat (count_scan sub s 0)
  end.

(** [a < b] on strings: lexicographic order of the code points, a proper
    prefix being smaller. *)
Fixpoint lt (a b : str) : bool :=
  match a, b with
  | _, [] => false
  | [], _ :: _ => true
  | x :: a', y :: b' =>
    if (x <? y)%N then true
    else if (x =? y)%N then lt a' b'
    else false
  end.

(** Splitting on a non-empty separator, [s.split(sep)]: [cur] holds the
    reversed characters of the piece being read, [skip] the characters of a
    separator still to drop. *)
Fixpoint split_scan (sep s : str) (skip : nat) (cur : str) : list str :=
  match s with
  | [] => [rev cur]
  | c :: s' =>
    match skip with
    | S k => split_scan sep s' k cur
    | O =>
      if startswith sep s
      then rev cur :: split_scan sep s' (length sep - 1) []
      else split_scan sep s' 0 (c :: cur)
    end
  end.

Inductive split_result :=
| SplitOk (pieces : list str)
| SplitValueError.

(** [s.split(sep)]: an empty separator raises [ValueError]. *)
Definition split (s sep : str) : split_result :=
  match sep with
  | [] => SplitValueError
  | _ :: _ => SplitOk (split_scan sep s 0 [])
  end.

(** ** What "number of non-overlapping occurrences" means *)

(** [sub] occurs in [s] at position [p]. *)
Definition occurs_at (sub s : str) (p : nat) : Prop :=
  p <= length s /\ firstn (length sub) (skipn p s) = sub.

(** Positions in increasing order, none before [lo], two consecutive ones
    at least [w] apart (and distinct). *)
Inductive spaced (w : nat) : nat -> list nat -> Prop :=
| spaced_nil lo : spaced w lo []
| spaced_cons lo p ps :
    lo <= p -> spaced w (p + Nat.max w 1) ps -> spaced w lo (p :: ps).

(** A family of pairwise non-overlapping occurrences of [sub] in [s]. *)
Definition nonoverlapping (sub s : str) (ps : list nat) : Prop :=
  spaced (length sub) 0 ps /\ Forall (occurs_at sub s) ps.

(** [n] is the number of non-overlapping occurrences of [sub] in [s]: the
    size of a largest such family. *)
Definition occurrences (sub s : str) (n : nat) : Prop :=
  (exists ps, nonoverlapping sub s ps /\ length ps = n) /\
  (forall ps, nonoverlapping sub s ps -> length ps <= n).

End PyStr.

(* ===================================================================== *)
(** * Regular expressions: what [re.search] needs *)
(* ===================================================================== *)

Module Re.

(** The fragment of Python's [re] syntax the money pattern is written in.
    Groups only group here (no back-references), so they leave no trace. *)
Inductive regex :=
| Eps
| Chr (c : N)               (* one literal character, escaped or not *)
| Cls (p : N -> bool)       (* a character class: [\d], [\D], [[1-9]] *)
| Bol                       (* [^] *)
| Eol                       (* [$] *)
| Seq (r1 r2 : regex)
| Alt (r1 r2 : regex)       (* [r1|r2] *)
| Star (r : regex).         (* [r*] *)

(** A place in the subject string: whether it is the very start, and the
    characters to its right. *)
Definition pos := (bool * str)%type.

Definition remaining (p : pos) : nat := length (snd p).

(** The places [r*] can end at, given the places one [r] can end at.  An
    iteration that consumes nothing adds no place, so only the consuming
    ones are followed, at most [fuel] deep. *)
Fixpoint star_ends (step : pos -> list pos) (fuel : nat) (p : pos) : list pos :=
  match fuel with
  | O => [p]
  | S f =>
    p :: flat_map (star_ends step f)
           (List.filter (fun q => remaining q <? remaining p) (step p))
  end.

(** All the places a match of [r] that starts at [p] can end at.  [^]
    matches at the start only and [$] at the end or before a final newline
    (no [MULTILINE] flag). *)
Fixpoint ends (r : regex) (p : pos) : list pos :=
  match r with
  | Eps => [p]
  | Chr c =>
    match snd p with
    | x :: s => if (x =? c)%N then [(false, s)] else []
    | [] => []
    end
  | Cls f =>
    match snd p with
    | x :: s => if f x then [(false, s)] else []
    | [] => []
    end
  | Bol => if fst p then [p] else []
  | Eol =>
    match snd p with
    | [] => [p]
    | [x] => if (x =? 10)%N then [p] else []
    | _ => []
    end
  | Seq r1 r2 => flat_map (ends r2) (ends r1 p)
  | Alt r1 r2 => ends r1 p ++ ends r2 p
  | Star r1 => star_ends (ends r1) (remaining p) p
  end.

(** [re.search(r, s) is not None]: some match starts somewhere in [s]. *)
Fixpoint search_from (r : regex) (at_start : bool) (s : str) : bool :=
  match ends r (at_start, s) with
  | _ :: _ => true
  | [] =>
    match s with
    | [] => false
    | _ :: s' => search_from r false s'
    end
  end.

Definition search (r : regex) (s : str) : bool := search_from r true s.

(** ** The meaning of a pattern, as a relation *)

Inductive matches : regex -> pos -> pos -> Prop :=
| m_eps p : matches Eps p p
| m_chr c b s : matches (Chr c) (b, c :: s) (false, s)
| m_cls (f : N -> bool) b x s : f x = true -> matches (Cls f) (b, x :: s) (false, s)
| m_bol s : matches Bol (true, s) (true, s)
| m_eol_end b : matches Eol (b, []) (b, [])
| m_eol_newline b : matches Eol (b, [10%N]) (b, [10%N])
| m_seq r1 r2 p q t : matches r1 p q -> matches r2 q t -> matches (Seq r1 r2) p t
| m_alt_l r1 r2 p q : matches r1 p q -> matches (Alt r1 r2) p q
| m_alt_r r1 r2 p q : matches r2 p q -> matches (Alt r1 r2) p q
| m_star_stop r p : matches (Star r) p p
| m_star_more r p q t : matches r p q -> matches (Star r) q t -> matches (Star r) p t.

(** The pattern matches a substring of [s]. *)
Definition found (r : regex) (s : str) : Prop :=
  exists before rest q,
    s = before ++ rest /\
    matches r (match before with [] => true | _ :: _ => false end, rest) q.

(** ** Derived forms *)

(** A literal word. *)
Fixpoint lit (s : str) : regex :=
  match s with
  | [] => Eps
  | c :: s' => Seq (Chr c) (lit s')
  end.

(** [r{n}] *)
Fixpoint times (n : nat) (r : regex) : regex :=
  match n with
  | O => Eps
  | S k => Seq r (times k r)
  end.

(** [r{0,n}] *)
Fixpoint upto (n : nat) (r : regex) : regex :=
  match n with
  | O => Eps
  | S k => Alt Eps (Seq r (upto k r))
  end.

(** [[a-b]] *)
Definition range (a b : N) : regex := Cls (fun c => (a <=? c)%N && (c <=? b)%N).

Fixpoint seqs (rs : list regex) : regex :=
  match rs with
  | [] => Eps
  | [r] => r
  | r :: rs' => Seq r (seqs rs')
  end.

(** ["|".join(rs)] of at least one pattern. *)
Fixpoint alts (r : regex) (rs : list regex) : regex :=
  match rs with
  | [] => r
  | r' :: rs' => Alt r (alts r' rs')
  end.

(** Two patterns of the same shape whose classes hold the same characters. *)
Fixpoint same_classes (r r' : regex) : Prop :=
  match r, r' with
  | Eps, Eps | Bol, Bol | Eol, Eol => True
  | Chr c, Chr c' => c = c'
  | Cls f, Cls g => forall x, f x = g x
  | Seq a b, Seq a' b' | Alt a b, Alt a' b' => same_classes a a' /\ same_classes b b'
  | Star a, Star a' => same_classes a a'
  | _, _ => False
  end.

End Re.

(* ===================================================================== *)
(** * SHA-1 ([hashlib.sha1], FIPS 180-4) *)
(* ===================================================================== *)

Module Sha1.

Local Open Scope N_scope.

Definition mask32 (x : N) : N := N.land x 0xFFFFFFFF.
Definition add32 (x y : N) : N := mask32 (x + y).
Definition rotl (n x : N) : N := mask32 (N.lor (N.shiftl x n) (N.shiftr x (32 - n))).
Definition not32 (x : N) : N := N.lxor x 0xFFFFFFFF.

(** Big-endian bytes of the low [8 * n] bits of [x]. *)
Fixpoint be_bytes (n : nat) (x : N) : list N :=
  match n with
  | O => []
  | S k => N.land (N.shiftr x (8 * N.of_nat k)) 0xFF :: be_bytes k x
  end.

Definition be_word (bs : list N) : N :=
  fold_left (fun acc b => N.lor (N.shiftl acc 8) b) bs 0.

(** Padding: a one bit, zeros up to 56 modulo 64, the bit length on 8 bytes. *)
Definition pad (msg : list N) : list N :=
  let len := N.of_nat (length msg) in
  let zeros := N.to_nat ((119 - len mod 64) mod 64) in
  msg ++ 0x80 :: repeat 0 zeros ++ be_bytes 8 (8 * len).

Fixpoint chunks (fuel : nat) (n : nat) (l : list N) : list (list N) :=
  match fuel, l with
  | _, [] => []
  | O, _ => []
  | S f, _ => firstn n l :: chunks f n (skipn n l)
  end.

(** The message schedule, latest word first. *)
Fixpoint schedule (n : nat) (w : list N) : list N :=
  match n with
  | O => w
  | S k =>
    let x := N.lxor (N.lxor (nth 2 w 0) (nth 7 w 0))
                    (N.lxor (nth 13 w 0) (nth 15 w 0)) in
    schedule k (rotl 1 x :: w)
  end.

Definition f_k (t : nat) (b c d : N) : N * N :=
  if (t <? 20)%nat then (N.lor (N.land b c) (N.land (not32 b) d), 0x5A827999)
  else if (t <? 40)%nat then (N.lxor (N.lxor b c) d, 0x6ED9EBA1)
  else if (t <? 60)%nat
       then (N.lor (N.lor (N.land b c) (N.land b d)) (N.land c d), 0x8F1BBCDC)
  else (N.lxor (N.lxor b c) d, 0xCA62C1D6).

Definition state := (N * N * N * N * N)%type.

Definition round (s : state) (tw : nat * N) : state :=
  let '(a, b, c, d, e) := s in
  let '(f, k) := f_k (fst tw) b c d in
  let temp := add32 (add32 (add32 (add32 (rotl 5 a) f) e) k) (snd tw) in
  (temp, a, rotl 30 b, c, d).

Definition compress (h : state) (block : list N) : state :=
  let w16 := map be_word (chunks 16 4 block) in
  let w := rev (schedule 64 (rev w16)) in
  let '(a, b, c, d, e) := fold_left round (combine (seq 0 80) w) h in
  let '(h0, h1, h2, h3, h4) := h in
  (add32 h0 a, add32 h1 b, add32 h2 c, add32 h3 d, add32 h4 e).

Definition init : state :=
  (0x67452301, 0xEFCDAB89, 0x98BADCFE, 0x10325476, 0xC3D2E1F0).

(** [sha1(data).digest()]: twenty bytes. *)
Definition digest (data : list byte) : list byte :=
  let padded := pad (map Byte.to_N data) in
  let '(h0, h1, h2, h3, h4) :=
    fold_left compress (chunks (length padded) 64 padded) init in
  flat_map (fun h => map (fun b => match Byte.of_N b with Some x => x | None => x00 end)
                         (be_bytes 4 h))
           [h0; h1; h2; h3; h4].

Definition hex_digit (n : N) : N := if n <? 10 then 48 + n else 87 + n.

Definition hex_byte (b : byte) : str :=
  let n := Byte.to_N b in [hex_digit (n / 16); hex_digit (n mod 16)].

Definition hex (bs : list byte) : str := flat_map hex_byte bs.

(** [sha1(data).hexdigest()]: forty lower-case hexadecimal digits. *)
Definition hexdigest (data : list byte) : str := hex (digest data).

End Sha1.

(* ===================================================================== *)
(** * The external collaborators *)
(* ===================================================================== *)

(** What a DOM query made by a field reader does: it returns, or raises one
    of the two Selenium exceptions the readers catch. *)
Inductive lookup (A : Type) : Type :=
| Found (a : A)
| NoSuchElementException
| StaleElementReferenceException.

Arguments NoSuchElementException {A}.
Arguments StaleElementReferenceException {A}.

(** A DOM element.  Every attempt of a reader queries the DOM anew, so each
    field is scripted: the answer to the query number [n] (from 0) that the
    reader makes on this element. *)
Record WebElement := {
  text : str;                                  (* [element.text] *)
  title_text : nat -> lookup str;              (* PagePromo-title text *)
  data_timestamp : nat -> lookup Z;            (* int(data-timestamp) *)
  description_text : nat -> lookup str;        (* PagePromo-description text *)
  img_screenshot : nat -> lookup (list byte)   (* img.screenshot_as_png *)
}.

(** A locator is a selector string or an element already in hand. *)
Inductive locator :=
| Css (selector : string)
| Element (e : WebElement).

(** The exceptions the resilient actions catch. *)
Inductive action_error :=
| ElementClickIntercepted
| NoSuchElement
| StaleElementReference.

(** The Selenium client: a session state and the calls the engine makes. *)
Record Browser := {
  session : Type;
  open_browser : string -> session;
  click_element : locator -> session -> session * option action_error;
  input_text : locator -> str -> session -> session * option action_error;
  select_from_list_by_label : locator -> str -> session -> session * option action_error;
  is_element_visible : string -> session -> bool;
  click_button : string -> session -> session;
  click_link : string -> session -> session;
  get_webelements : string -> session -> list WebElement;
  get_webelement_text : string -> session -> str;
  (* wait_until_page_contains_element: [false] is its AssertionError *)
  page_contains_element : WebElement -> session -> bool
}.

(** Unicode tables, the calendar and the clock. *)
Record Env := {
  is_decimal : N -> bool;                          (* category Nd: [\d] *)
  lower : str -> str;                              (* [str.lower] *)
  strftime_local : Z -> str;                       (* local time of an epoch second, as DATE_FORMAT *)
  time_difference_in_months : str -> str -> Z;     (* RPA.Calendar *)
  clock : nat -> Z                                 (* reading [n] of datetime.now(), in microseconds *)
}.

(** The decimal digits of ASCII; Unicode has no other decimal digit below 128. *)
Definition ascii_digit (c : N) : bool := (48 <=? c)%N && (c <=? 57)%N.

Definition OUTPUT_DIR : str := u "output".

(** [os.path.join(OUTPUT_DIR, name)] *)
Definition output_path (name : str) : str := OUTPUT_DIR ++ u "/" ++ name.

(* ===================================================================== *)
(** * class News *)
(* ===================================================================== *)

Module News.

Definition ATTEMPTS : nat := 5.

(** The fields of a [News] object. *)
Record t := {
  title : str;
  date : str;
  description : str;
  picture : str;
  count : Z;
  money : bool
}.

(** The retry loop of [__get_title], [__get_date] and [__get_description]:
    a failed query sets the field to the empty string and costs one
    attempt; the first answer ends the loop. *)
Fixpoint read_field (A : Type) (attempts : nat) (query : nat -> lookup A)
    (n : nat) (value : A -> str) : str :=
  match attempts with
  | O => []
  | S a =>
    match query n with
    | Found x => value x
    | NoSuchElementException | StaleElementReferenceException =>
      read_field a query (S n) value
    end
  end.

Definition get_title (element : WebElement) : str :=
  read_field ATTEMPTS (title_text element) 0 (fun t => t).

Definition get_date (env : Env) (element : WebElement) : str :=
  read_field ATTEMPTS (data_timestamp element) 0
    (fun timestamp => strftime_local env (timestamp / 1000)).

Definition get_description (element : WebElement) : str :=
  read_field ATTEMPTS (description_text element) 0 (fun t => t).

(** [f"{pic_sha1}.png"] *)
Definition picture_name (pic_bytes : list byte) : str :=
  Sha1.hexdigest pic_bytes ++ u ".png".

(** How [__get_picture] ends: the field, the file it wrote if any, the
    attempts left and the number of DOM queries made. *)
Record picture_result := {
  pic_name : str;
  pic_file : option (str * list byte);
  pic_attempts_left : nat;
  pic_queries : nat
}.

Fixpoint get_picture_loop (attempts : nat) (element : WebElement) (n : nat)
    : picture_result :=
  match attempts with
  | O => {| pic_name := []; pic_file := None;
            pic_attempts_left := 0; pic_queries := n |}
  | S a =>
    match img_screenshot element n with
    | Found pic_bytes =>
      let picture := picture_name pic_bytes in
      {| pic_name := picture;
         pic_file := Some (output_path picture, pic_bytes);
         pic_attempts_left := attempts; pic_queries := S n |}
    | NoSuchElementException =>
      {| pic_name := []; pic_file := None;
         pic_attempts_left := attempts; pic_queries := S n |}
    | StaleElementReferenceException => get_picture_loop a element (S n)
    end
  end.

Definition get_picture (element : WebElement) : picture_result :=
  get_picture_loop ATTEMPTS element 0.

Definition get_count (title description search_phrase : str) : Z :=
  PyStr.count title search_phrase + PyStr.count description search_phrase.

Definition ch (a : ascii) : N := N_of_ascii a.

(** The four alternatives of the money pattern, joined by a bar.  With
    NUM for the group body  \d|[1-9]\d*  and GRP for the group body
    \d|[1-9]\d{0,2}(,\d{3})*  they read
      \$(NUM)\.\d($|\D)
      \$(GRP)\.\d\d($|\D)
      (^|\D)(NUM) dollars
      (^|\D)(NUM) USD *)
Definition money_pattern (is_digit : N -> bool) : Re.regex :=
  let d := Re.Cls is_digit in
  let D := Re.Cls (fun c => negb (is_digit c)) in
  let one_nine := Re.range (ch "1") (ch "9") in
  let number := Re.Alt d (Re.Seq one_nine (Re.Star d)) in
  let grouped :=
    Re.Alt d (Re.seqs [one_nine; Re.upto 2 d;
                       Re.Star (Re.Seq (Re.Chr (ch ",")) (Re.times 3 d))]) in
  Re.alts
    (Re.seqs [Re.Chr (ch "$"); number; Re.Chr (ch "."); d; Re.Alt Re.Eol D])
    [Re.seqs [Re.Chr (ch "$"); grouped; Re.Chr (ch "."); d; d; Re.Alt Re.Eol D];
     Re.seqs [Re.Alt Re.Bol D; number; Re.lit (u " dollars")];
     Re.seqs [Re.Alt Re.Bol D; number; Re.lit (u " USD")]].

(** [(re.search(pattern, title) or re.search(pattern, description)) is not None] *)
Definition get_money (env : Env) (title description : str) : bool :=
  Re.search (money_pattern (is_decimal env)) title ||
  Re.search (money_pattern (is_decimal env)) description.

(** [News(element, search_phrase, files)]: the object, and the picture
    file written on the way. *)
Definition make (env : Env) (element : WebElement) (search_phrase : str)
    : t * option (str * list byte) :=
  let title := get_title element in
  let date := get_date env element in
  let description := get_description element in
  let pic := get_picture element in
  ({| title := title; date := date; description := description;
      picture := pic_name pic;
      count := get_count title description search_phrase;
      money := get_money env title description |},
   pic_file pic).

(** A worksheet cell. *)
Inductive cell :=
| Text (s : str)
| Int (n : Z).

(** [f"{b}"] of a boolean. *)
Definition bool_text (b : bool) : str := if b then u "True" else u "False".

(** The row [save_elements] appends, in column order
    title, date, description, picture, count, money. *)
Definition row (news : t) : list cell :=
  [Text (title news); Text (date news); Text (description news);
   Text (picture news); Int (count news); Text (bool_text (money news))].

End News.

(* ===================================================================== *)
(** * class APNewsCollector *)
(* ===================================================================== *)

Module APNewsCollector.

Definition URL : string := "https://apnews.com/".
Definition ATTEMPTS : nat := 5.
Definition ONE_TRUST_ACCEPT_BTN : string := "css:button#onetrust-accept-btn-handler".
Definition FANCYBOX_CLOSE_ANCHOR : string := "css:a.fancybox-item.fancybox-close".
Definition FAULTS_TOLERANCE : Z := 5.

(** The selectors, as the source writes them (less the quotes it puts
    around the two attribute values). *)
Definition SEARCH_BUTTON : string := "css:button.SearchOverlay-search-button".
Definition SEARCH_INPUT : string := "css:input.SearchOverlay-search-input[name=q]".
Definition SEARCH_SUBMIT : string := "css:button.SearchOverlay-search-submit".
Definition SORT_SELECT : string := "css:select.Select-input[name=s]".
Definition FILTER_HEADING : string := "css:div.SearchFilter-heading".
Definition FILTER_LABELS : string :=
  "css:div.SearchFilterInput div.CheckboxInput label.CheckboxInput-label".
Definition RESULT_ITEMS : string :=
  "css:div.SearchResultsModule-results div.PageList-items-item".
Definition PAGE_COUNTS : string := "css:div.Pagination-pageCounts".
Definition NEXT_PAGE : string := "css:div.Pagination-nextPage".

(** The private fields set by [__init__]. *)
Record t := {
  search_phrase : str;
  categories : str;
  months : Z;
  now : str;
  timeout : Z;
  sort_by : str
}.

(** [self.__months = months if months == 0 else months - 1] *)
Definition normalize_months (months : Z) : Z :=
  if (months =? 0)%Z then months else (months - 1)%Z.

(** [__init__]; it reads the clock once (reading 0).  [timeout] is in
    seconds, the clock in microseconds. *)
Definition init (env : Env) (search_phrase categories : str) (months : Z)
    (sort_by : str) (timeout : Z) : t :=
  let now := clock env 0 in
  {| search_phrase := search_phrase;
     categories := categories;
     months := normalize_months months;
     now := strftime_local env (now / 1000000);
     timeout := (now + timeout * 1000000)%Z;
     sort_by := sort_by |}.

(** What the engine did, for the record (not a variable of the code). *)
Inductive event :=
| Clicked (l : locator)        (* a call of [__secure_click_element] *)
| Listed (selector : string)   (* a call of [get_webelements] *)
| Extracted (news : News.t)    (* a [News] object was built *)
| Persisted (r : list News.cell)   (* [save_elements] appended a row *)
| Faults (n : Z).              (* [remaining_faults] was assigned [n] *)

Section Engine.

Variable env : Env.
Variable br : Browser.

(** Everything the engine acts on. *)
Record world := {
  page : session br;                    (* the browser session *)
  readings : nat;                       (* clock readings made so far *)
  worksheet : list (list News.cell);    (* rows appended, oldest first *)
  files : list (str * list byte);       (* picture files written, latest first *)
  log : list event                      (* latest first *)
}.

Definition with_page (p : session br) (w : world) : world :=
  {| page := p; readings := readings w; worksheet := worksheet w;
     files := files w; log := log w |}.

Definition note (e : event) (w : world) : world :=
  {| page := page w; readings := readings w; worksheet := worksheet w;
     files := files w; log := e :: log w |}.

(** [datetime.now().timestamp()] *)
Definition read_clock (w : world) : Z * world :=
  (clock env (readings w),
   {| page := page w; readings := S (readings w); worksheet := worksheet w;
      files := files w; log := log w |}).

Definition append_row (r : list News.cell) (w : world) : world :=
  {| page := page w; readings := readings w; worksheet := worksheet w ++ [r];
     files := files w; log := log w |}.

Definition write_file (f : option (str * list byte)) (w : world) : world :=
  match f with
  | None => w
  | Some file =>
    {| page := page w; readings := readings w; worksheet := worksheet w;
       files := file :: files w; log := log w |}
  end.

(** The events in the order they happened. *)
Definition history (w : world) : list event := rev (log w).

Definition check_modals (p : session br) : session br :=
  let p := if is_element_visible br ONE_TRUST_ACCEPT_BTN p
           then click_button br ONE_TRUST_ACCEPT_BTN p else p in
  if is_element_visible br FANCYBOX_CLOSE_ANCHOR p
  then click_link br FANCYBOX_CLOSE_ANCHOR p else p.

(** The retry loop of the three resilient actions; [action] is the one
    Selenium call they wrap. *)
Fixpoint secure_loop (attempts : nat)
    (action : session br -> session br * option action_error)
    (p : session br) : session br :=
  match attempts with
  | O => p
  | S a =>
    match action p with
    | (p', None) => p'
    | (p', Some ElementClickIntercepted) => secure_loop a action (check_modals p')
    | (p', Some NoSuchElement) | (p', Some StaleElementReference) =>
      secure_loop a action p'
    end
  end.

Definition secure_click_element (l : locator) (w : world) : world :=
  note (Clicked l) (with_page (secure_loop ATTEMPTS (click_element br l) (page w)) w).

Definition secure_input_text (l : locator) (s : str) (w : world) : world :=
  with_page (secure_loop ATTEMPTS (input_text br l s) (page w)) w.

Definition secure_select_from_list_by_label (l : locator) (labels : str)
    (w : world) : world :=
  with_page (secure_loop ATTEMPTS (select_from_list_by_label br l labels) (page w)) w.

Definition search_news (c : t) (w : world) : world :=
  let w := secure_click_element (Css SEARCH_BUTTON) w in
  let w := secure_input_text (Css SEARCH_INPUT) (search_phrase c) w in
  secure_click_element (Css SEARCH_SUBMIT) w.

(** [{category.lower() for category in self.__categories.split(",")}] *)
Definition category_set (categories : str) : gset str :=
  match PyStr.split categories (u ",") with
  | PyStr.SplitOk pieces => list_to_set (map (lower env) pieces)
  | PyStr.SplitValueError => ∅    (* never: the separator is not empty *)
  end.

(** The [for] loop over the checkbox labels: the first label whose
    lower-cased text is wanted. *)
Fixpoint first_wanted (labels : list WebElement) (categories : gset str)
    : option (WebElement * str) :=
  match labels with
  | [] => None
  | element :: rest =>
    let element_text := lower env (text element) in
    if bool_decide (element_text ∈ categories)
    then Some (element, element_text)
    else first_wanted rest categories
  end.

(** [while found and len(categories)], entered with [found] true; every
    turn that goes on removes a category. [None]: out of fuel. *)
Fixpoint filter_loop (fuel : nat) (categories : gset str) (w : world)
    : option world :=
  if (size categories =? 0)%nat then Some w
  else
    match fuel with
    | O => None
    | S f =>
      let w := secure_click_element (Css FILTER_HEADING) w in
      let w := note (Listed FILTER_LABELS) w in
      match first_wanted (get_webelements br FILTER_LABELS (page w)) categories with
      | Some (element, element_text) =>
        filter_loop f (categories ∖ {[element_text]})
                    (secure_click_element (Element element) w)
      | None => Some w
      end
    end.

Definition filter_news (c : t) (w : world) : option world :=
  let w := if PyStr.truthy (sort_by c)
           then secure_select_from_list_by_label (Css SORT_SELECT) (sort_by c) w
           else w in
  let categories := category_set (categories c) in
  filter_loop (size categories) categories w.

(** [news.save_elements()]: one row appended to the worksheet. *)
Definition save_elements (news : News.t) (w : world) : world :=
  note (Persisted (News.row news)) (append_row (News.row news) w).

(** How the body of the [for] loop of [__get_news] leaves an element. *)
Inductive flow :=
| Next          (* on to the next element ([continue] or the end of the body) *)
| Return        (* [return] *)
| Raise.        (* an exception no one catches *)

(** One turn of the [for] loop, on [element], with [remaining_faults]. *)
Definition visit (c : t) (element : WebElement) (remaining_faults : Z)
    (w : world) : flow * (Z * world) :=
  let (t, w) := read_clock w in
  if (timeout c <=? t)%Z || (remaining_faults =? 0)%Z
  then (Return, (remaining_faults, w))
  else if negb (page_contains_element br element (page w))
  then (Raise, (remaining_faults, w))
  else
    let (news, file) := News.make env element (search_phrase c) in
    let w := note (Extracted news) (write_file file w) in
    if negb (PyStr.truthy (News.date news))
    then (Next, ((remaining_faults - 1)%Z, note (Faults (remaining_faults - 1)) w))
    else
      let months_diff := time_difference_in_months env (News.date news) (now c) in
      if (months_diff >? months c)%Z
      then (Next, ((remaining_faults - 1)%Z, note (Faults (remaining_faults - 1)) w))
      else
        let w := save_elements news w in
        (Next, (FAULTS_TOLERANCE, note (Faults FAULTS_TOLERANCE) w)).

(** The [for] loop over the result elements of one page. *)
Fixpoint visit_all (c : t) (elements : list WebElement) (remaining_faults : Z)
    (w : world) : flow * (Z * world) :=
  match elements with
  | [] => (Next, (remaining_faults, w))
  | element :: rest =>
    match visit c element remaining_faults w with
    | (Next, (remaining_faults', w')) => visit_all c rest remaining_faults' w'
    | stopped => stopped
    end
  end.

(** How [__get_news] ends. *)
Inductive outcome :=
| Done           (* it returned *)
| Raised         (* an exception left it *)
| OutOfFuel.     (* still running after [fuel] pages *)

(** [while remaining_faults > 0], one page a turn. *)
Fixpoint get_news_loop (fuel : nat) (c : t) (remaining_faults : Z) (w : world)
    : outcome * (Z * world) :=
  match fuel with
  | O => (OutOfFuel, (remaining_faults, w))
  | S f =>
    if (remaining_faults >? 0)%Z then
      let w := note (Listed RESULT_ITEMS) w in
      match visit_all c (get_webelements br RESULT_ITEMS (page w)) remaining_faults w with
      | (Next, (remaining_faults, w)) =>
        match PyStr.split (get_webelement_text br PAGE_COUNTS (page w)) (u " of ") with
        | PyStr.SplitOk [current; total] =>
          if PyStr.lt current total
          then get_news_loop f c remaining_faults (secure_click_element (Css NEXT_PAGE) w)
          else (Done, (remaining_faults, w))
        | _ => (Raised, (remaining_faults, w))     (* the unpacking fails *)
        end
      | (Return, s) => (Done, s)
      | (Raise, s) => (Raised, s)
      end
    else (Done, (remaining_faults, w))
  end.

Definition get_news (fuel : nat) (c : t) (w : world) : outcome * (Z * world) :=
  get_news_loop fuel c FAULTS_TOLERANCE (note (Faults FAULTS_TOLERANCE) w).

(** The header row of the workbook. *)
Definition header : list News.cell :=
  map (fun s => News.Text (u s))
      ["Title"; "Date"; "Description"; "Picture"; "Count"; "Money"]%string.

(** The state [__init__] leaves: the clock read once, nothing written. *)
Definition start : world :=
  {| page := open_browser br URL; readings := 1; worksheet := []; files := [];
     log := [] |}.

(** [collect_news]; [None] when the category loop runs out of fuel (it
    never does). *)
Definition collect_news (fuel : nat) (c : t) : option (outcome * (Z * world)) :=
  let w := append_row header start in
  let w := search_news c w in
  match filter_news c w with
  | Some w => Some (get_news fuel c w)
  | None => None
  end.

End Engine.

(** ** Reading the record of a run *)

(** The values assigned to [remaining_faults], latest first. *)
Fixpoint faults_of (l : list event) : list Z :=
  match l with
  | [] => []
  | Faults n :: l' => n :: faults_of l'
  | _ :: l' => faults_of l'
  end.

(** Counter values, latest first: the earliest is 5, and every later one is
    5 again or one less than its predecessor, which was positive. *)
Fixpoint counts_down (values : list Z) : Prop :=
  match values with
  | [] => True
  | b :: earlier =>
    match earlier with
    | [] => b = 5%Z
    | a :: _ => (b = 5%Z \/ ((0 < a)%Z /\ b = (a - 1)%Z)) /\ counts_down earlier
    end
  end.

(** The records (latest event first) that leave the counter at a given
    value: the counter starts at the tolerance, and while it is positive a
    page may be listed, a control clicked, and an item extracted and then
    either counted as a fault or persisted with the counter reset. *)
Inductive budget_log : list event -> Z -> Prop :=
| bl_init : budget_log [Faults FAULTS_TOLERANCE] FAULTS_TOLERANCE
| bl_listed l rf selector :
    budget_log l rf -> (0 < rf)%Z -> budget_log (Listed selector :: l) rf
| bl_clicked l rf x :
    budget_log l rf -> (0 < rf)%Z -> budget_log (Clicked x :: l) rf
| bl_fault l rf news :
    budget_log l rf -> (0 < rf)%Z ->
    budget_log (Faults (rf - 1) :: Extracted news :: l) (rf - 1)%Z
| bl_persist l rf news :
    budget_log l rf -> (0 < rf)%Z ->
    budget_log (Faults FAULTS_TOLERANCE :: Persisted (News.row news)
                  :: Extracted news :: l) FAULTS_TOLERANCE.

End APNewsCollector.

(* ===================================================================== *)
(** * Test doubles *)
(* ===================================================================== *)

(** Stand-ins for the collaborators, to run the engine on concrete pages. *)
Module Double.

Import APNewsCollector.

Definition ascii_lower (c : N) : N :=
  if (65 <=? c)%N && (c <=? 90)%N then (c + 32)%N else c.

Definition decimal (n : Z) : str :=
  u (DecimalString.NilZero.string_of_int (Z.to_int n)).

Definition of_decimal (s : str) : Z :=
  match DecimalString.NilZero.int_of_string
          (string_of_list_ascii (map ascii_of_N s)) with
  | Some i => Z.of_int i
  | None => 0
  end.

(** A calendar that writes a date as its epoch second in decimal and takes
    a month to be 30 days; the clock starts at [t0] and advances one second
    a reading. *)
Definition env (t0 : Z) : Env :=
  {| is_decimal := ascii_digit;
     lower := map ascii_lower;
     strftime_local := decimal;
     time_difference_in_months :=
       fun a b => ((of_decimal b - of_decimal a) / 2592000)%Z;
     clock := fun n => ((t0 + Z.of_nat n) * 1000000)%Z |}.

(** A result element that answers every query at once and has no image. *)
Definition article (title description : string) (timestamp_ms : Z) : WebElement :=
  {| text := [];
     title_text := fun _ => Found (u title);
     data_timestamp := fun _ => Found timestamp_ms;
     description_text := fun _ => Found (u description);
     img_screenshot := fun _ => NoSuchElementException |}.

(** A result element whose timestamp marker is never found. *)
Definition undated (title : string) : WebElement :=
  {| text := [];
     title_text := fun _ => Found (u title);
     data_timestamp := fun _ => NoSuchElementException;
     description_text := fun _ => NoSuchElementException;
     img_screenshot := fun _ => NoSuchElementException |}.

(** A checkbox label. *)
Definition label (s : string) : WebElement :=
  {| text := u s;
     title_text := fun _ => NoSuchElementException;
     data_timestamp := fun _ => NoSuchElementException;
     description_text := fun _ => NoSuchElementException;
     img_screenshot := fun _ => NoSuchElementException |}.

(** An element whose image goes stale [k] times and then answers [last]. *)
Definition flaky_image (k : nat) (last : lookup (list byte)) : WebElement :=
  {| text := [];
     title_text := fun _ => Found (u "Markets");
     data_timestamp := fun _ => Found 0%Z;
     description_text := fun _ => Found [];
     img_screenshot :=
       fun n => if (n <? k)%nat then StaleElementReferenceException else last |}.

(** A browser over a fixed list of result pages, each with its items and
    its page-counts text; the session is the index of the page shown, and
    only a click on the next-page control changes it. *)
Definition browser (pages : list (list WebElement * string))
    (labels : list WebElement) : Browser :=
  {| session := nat;
     open_browser := fun _ => 0%nat;
     click_element := fun l p =>
       match l with
       | Css sel => if String.eqb sel NEXT_PAGE then (S p, None) else (p, None)
       | Element _ => (p, None)
       end;
     input_text := fun _ _ p => (p, None);
     select_from_list_by_label := fun _ _ p => (p, None);
     is_element_visible := fun _ _ => false;
     click_button := fun _ p => p;
     click_link := fun _ p => p;
     get_webelements := fun sel p =>
       if String.eqb sel RESULT_ITEMS then fst (nth p pages ([], ""%string))
       else if String.eqb sel FILTER_LABELS then labels
       else [];
     get_webelement_text := fun _ p => u (snd (nth p pages ([], ""%string)));
     page_contains_element := fun _ _ => true |}.

End Double.

(* ===================================================================== *)
(** * More of Python's strings *)
(* ===================================================================== *)

Module PyText.

(** [sep.join(pieces)] *)
Fixpoint join (sep : str) (pieces : list str) : str :=
  match pieces with
  | [] => []
  | piece :: rest =>
    match rest with
    | [] => piece
    | _ :: _ => piece ++ sep ++ join sep rest
    end
  end.

(** [int(s)] for a string of ASCII decimal digits. *)
Definition decimal_value (s : str) : Z :=
  fold_left (fun acc c => (10 * acc + (Z.of_N c - 48))%Z) s 0%Z.

Definition all_digits (s : str) : bool := forallb ascii_digit s.

(** A lower-case hexadecimal digit. *)
Definition hex_char (c : N) : bool :=
  ((48 <=? c)%N && (c <=? 57)%N) || ((97 <=? c)%N && (c <=? 102)%N).

End PyText.

(* ===================================================================== *)
(** * tasks.py *)
(* ===================================================================== *)

Module Tasks.

(** A work item variable, as far as the task looks at it: the JSON
    scalars.  The collector works on a string phrase, a string of
    categories and an integer number of months. *)
Inductive value :=
| VNone
| VBool (b : bool)
| VInt (n : Z)
| VStr (s : str).

(** [bool(v)] *)
Definition truthy (v : value) : bool :=
  match v with
  | VNone => false
  | VBool b => b
  | VInt n => negb (n =? 0)%Z
  | VStr s => PyStr.truthy s
  end.

(** [wi.get_work_item_variable(name, default)] *)
Definition get_work_item_variable (wi : gmap string value) (name : string)
    (default_value : value) : value :=
  default default_value (wi !! name).

(** What the task does next. *)
Inductive plan :=
| Skip                               (* the task returns, nothing is collected *)
| Collect (c : APNewsCollector.t)    (* [collector.collect_news()] is run *)
| OtherTypes.                        (* variables of types the collector does not expect *)

(** [collect_news]: [None] is a [KeyError] raised while the work item is
    read, which the task catches. *)
Definition collect_news (env : Env) (input : option (gmap string value)) : plan :=
  match input with
  | None => Skip
  | Some wi =>
    let search_phrase := get_work_item_variable wi "search_phrase" (VStr []) in
    if negb (truthy search_phrase) then Skip
    else
      let categories := get_work_item_variable wi "categories" (VStr []) in
      let months := get_work_item_variable wi "months" (VInt 0) in
      match search_phrase, categories, months with
      | VStr phrase, VStr cats, VInt m =>
        Collect (APNewsCollector.init env phrase cats m (u "Newest") 170)
      | _, _, _ => OtherTypes
      end
  end.

End Tasks.

(* ===================================================================== *)
(** * Probes *)
(* ===================================================================== *)

(** Devices to observe a run: a browser that counts the calls of the
    wrapped actions, a browser stuck on one page, and readers of the
    record. *)
Module Probe.

Import APNewsCollector.

(** An action on a session paired with a call counter. *)
Definition count_calls (S0 : Type)
    (action : S0 -> S0 * option action_error)
    (pn : S0 * nat) : (S0 * nat) * option action_error :=
  let (p', e) := action (fst pn) in ((p', S (snd pn)), e).

(** [br] with a counter of the calls of [click_element], [input_text] and
    [select_from_list_by_label]; everything else is [br]'s. *)
Definition counted (br : Browser) : Browser :=
  {| session := (session br * nat)%type;
     open_browser := fun url => (open_browser br url, 0%nat);
     click_element := fun l => count_calls (click_element br l);
     input_text := fun l s => count_calls (input_text br l s);
     select_from_list_by_label := fun l s =>
       count_calls (select_from_list_by_label br l s);
     is_element_visible := fun sel pn => is_element_visible br sel (fst pn);
     click_button := fun sel pn => (click_button br sel (fst pn), snd pn);
     click_link := fun sel pn => (click_link br sel (fst pn), snd pn);
     get_webelements := fun sel pn => get_webelements br sel (fst pn);
     get_webelement_text := fun sel pn => get_webelement_text br sel (fst pn);
     page_contains_element := fun e pn => page_contains_element br e (fst pn) |}.

(** A browser that shows one page whatever is clicked. *)
Definition frozen (items : list WebElement) (counts : string) : Browser :=
  {| session := unit;
     open_browser := fun _ => tt;
     click_element := fun _ p => (p, None);
     input_text := fun _ _ p => (p, None);
     select_from_list_by_label := fun _ _ p => (p, None);
     is_element_visible := fun _ _ => false;
     click_button := fun _ p => p;
     click_link := fun _ p => p;
     get_webelements := fun sel _ =>
       if String.eqb sel RESULT_ITEMS then items else [];
     get_webelement_text := fun _ _ => u counts;
     page_contains_element := fun _ _ => true |}.

(** The checkbox labels clicked, latest first. *)
Fixpoint clicked_labels (l : list event) : list WebElement :=
  match l with
  | [] => []
  | Clicked (Element e) :: l' => e :: clicked_labels l'
  | _ :: l' => clicked_labels l'
  end.

(** The [News] objects built, latest first. *)
Fixpoint extracted (l : list event) : list News.t :=
  match l with
  | [] => []
  | Extracted news :: l' => news :: extracted l'
  | _ :: l' => extracted l'
  end.

(** An item the loop keeps: it has a date, within the cutoff. *)
Definition qualifies (env : Env) (c : t) (news : News.t) : Prop :=
  News.date news <> [] /\
  (time_difference_in_months env (News.date news) (now c) <= months c)%Z.

(** From [w] to [w'] the worksheet only grew, by rows of qualifying items. *)
Definition adds_rows (env : Env) (br : Browser) (c : t) (w w' : world br) : Prop :=
  exists items, worksheet w' = worksheet w ++ map News.row items /\
                Forall (qualifies env c) items.

End Probe.

(* ===================================================================== *)
(** * Properties *)
(* ===================================================================== *)

Unset Implicit Arguments.

(** ** [str.count] counts non-overlapping occurrences *)

Module PyStrFacts.
Import PyStr.

Lemma startswith_firstn sub s :
  startswith sub s = true <-> firstn (length sub) s = sub.
Proof.
  revert s. induction sub as [|a sub IH]; intros s; simpl.
  - split; reflexivity.
  - destruct s as [|b s]; simpl.
    + split; discriminate.
    + rewrite andb_true_iff, N.eqb_eq, IH. split.
      * intros [-> ->]. reflexivity.
      * intros H. injection H as -> H. split; [reflexivity | exact H].
Qed.

Lemma occurs_at_0 sub s : occurs_at sub s 0 <-> startswith sub s = true.
Proof.
  unfold occurs_at. simpl. rewrite startswith_firstn. split.
  - intros [_ H]. exact H.
  - intros H. split; [lia | exact H].
Qed.

Lemma occurs_at_S sub c s p : occurs_at sub (c :: s) (S p) <-> occurs_at sub s p.
Proof. unfold occurs_at. simpl. split; intros [H1 H2]; split; try lia; exact H2. Qed.

Lemma occurs_at_nil sub p : sub <> [] -> ~ occurs_at sub [] p.
Proof.
  intros Hsub [_ H]. rewrite skipn_nil, firstn_nil in H. congruence.
Qed.

Lemma spaced_weaken w lo lo' ps : lo' <= lo -> spaced w lo ps -> spaced w lo' ps.
Proof.
  intros Hle H. destruct H as [|lo p ps Hp Hps]; constructor; [lia | exact Hps].
Qed.

Lemma spaced_map_S w lo ps : spaced w lo ps -> spaced w (S lo) (map S ps).
Proof.
  induction 1 as [|lo p ps Hp _ IH]; simpl; constructor; [lia | exact IH].
Qed.

Lemma spaced_map_pred w lo ps :
  spaced w lo ps -> 0 < lo ->
  spaced w (lo - 1) (map Nat.pred ps) /\ map S (map Nat.pred ps) = ps.
Proof.
  induction 1 as [|lo p ps Hp _ IH]; intros Hlo; simpl.
  - split; [constructor | reflexivity].
  - destruct IH as [IH1 IH2]; [lia|].
    destruct p as [|p]; [lia|]. simpl in *. split.
    + constructor; [lia|].
      replace (p + Nat.max w 1) with (S (p + Nat.max w 1) - 1) by lia. exact IH1.
    + now rewrite IH2.
Qed.

Lemma Forall_occurs_shift sub c s ps :
  Forall (occurs_at sub (c :: s)) (map S ps) <-> Forall (occurs_at sub s) ps.
Proof.
  rewrite Forall_map. rewrite !Forall_forall. split; intros H p Hp.
  - apply (occurs_at_S sub c s p), H, Hp.
  - apply occurs_at_S, H, Hp.
Qed.

Lemma count_scan_upper sub s skip ps :
  sub <> [] ->
  spaced (length sub) skip ps -> Forall (occurs_at sub s) ps ->
  length ps <= count_scan sub s skip.
Proof.
  intros Hsub. revert skip ps.
  assert (Hw : 0 < length sub) by (destruct sub; [congruence | simpl; lia]).
  assert (Hshift : forall c s lo ps,
    spaced (length sub) lo ps -> 0 < lo -> Forall (occurs_at sub (c :: s)) ps ->
    spaced (length sub) (lo - 1) (map Nat.pred ps) /\
    Forall (occurs_at sub s) (map Nat.pred ps)).
  { intros c0 s0 lo0 ps0 Hsp Hlo Hocc.
    destruct (spaced_map_pred _ _ _ Hsp Hlo) as [H1 H2]. split; [exact H1|].
    rewrite <- H2 in Hocc. now apply Forall_occurs_shift in Hocc. }
  induction s as [|c s IH]; intros skip ps Hsp Hocc.
  - destruct ps as [|p ps]; [simpl; lia|].
    apply Forall_cons_iff in Hocc as [Hp _].
    exfalso. eapply occurs_at_nil; eauto.
  - simpl. destruct skip as [|k].
    + destruct (startswith sub (c :: s)) eqn:Hst.
      * destruct ps as [|p ps]; [simpl; lia|]. simpl.
        inversion Hsp as [|? ? ? _ Hps]; subst.
        apply Forall_cons_iff in Hocc as [_ Hocc].
        assert (Hps' : spaced (length sub) (length sub) ps)
          by (eapply spaced_weaken; [|exact Hps]; lia).
        destruct (Hshift _ _ _ _ Hps' Hw Hocc) as [H1 H2].
        specialize (IH _ _ H1 H2). rewrite length_map in IH. lia.
      * assert (Hsp1 : spaced (length sub) 1 ps).
        { inversion Hsp as [|? p ps' _ Hps]; subst; constructor; [|exact Hps].
          destruct p; [|lia]. apply Forall_cons_iff in Hocc as [Hp0 _].
          rewrite occurs_at_0 in Hp0. congruence. }
        destruct (Hshift _ _ _ _ Hsp1 ltac:(lia) Hocc) as [H1 H2].
        specialize (IH _ _ H1 H2). rewrite length_map in IH. exact IH.
    + destruct (Hshift _ _ _ _ Hsp ltac:(lia) Hocc) as [H1 H2].
      replace (S k - 1) with k in H1 by lia.
      specialize (IH _ _ H1 H2). rewrite length_map in IH. exact IH.
Qed.

Lemma count_scan_lower sub s skip :
  sub <> [] ->
  exists ps, spaced (length sub) skip ps /\ Forall (occurs_at sub s) ps /\
             length ps = count_scan sub s skip.
Proof.
  intros Hsub. revert skip.
  assert (Hw : 0 < length sub) by (destruct sub; [congruence | simpl; lia]).
  induction s as [|c s IH]; intros skip.
  - exists []. repeat split; constructor.
  - simpl. destruct skip as [|k].
    + destruct (startswith sub (c :: s)) eqn:Hst.
      * destruct (IH (length sub - 1)) as (ps & H1 & H2 & H3).
        exists (0 :: map S ps). split; [|split].
        -- constructor; [lia|]. apply spaced_map_S in H1.
           eapply spaced_weaken; [|exact H1]. lia.
        -- constructor; [now apply occurs_at_0 | now apply Forall_occurs_shift].
        -- simpl. rewrite length_map. now rewrite H3.
      * destruct (IH 0) as (ps & H1 & H2 & H3).
        exists (map S ps). split; [|split].
        -- eapply spaced_weaken; [|apply spaced_map_S, H1]. lia.
        -- now apply Forall_occurs_shift.
        -- now rewrite length_map.
    + destruct (IH k) as (ps & H1 & H2 & H3).
      exists (map S ps). split; [|split].
      * apply spaced_map_S, H1.
      * now apply Forall_occurs_shift.
      * now rewrite length_map.
Qed.

(** With the empty [sub] every position of [s], its end included, is an
    occurrence. *)
Lemma spaced_bounded w lo ps n :
  spaced w lo ps -> Forall (fun p => p <= n) ps -> length ps <= S n - lo.
Proof.
  induction 1 as [|lo p ps Hp _ IH]; intros Hall; simpl; [lia|].
  apply Forall_cons_iff in Hall as [Hpn Hall]. specialize (IH Hall). lia.
Qed.

Lemma spaced_seq lo k : spaced 0 lo (seq lo k).
Proof.
  revert lo. induction k as [|k IH]; intros lo; simpl; constructor; [lia|].
  replace (lo + Nat.max 0 1) with (S lo) by lia. apply IH.
Qed.

Lemma count_occurrences s sub :
  exists n, occurrences sub s n /\ count s sub = Z.of_nat n.
Proof.
  destruct sub as [|a sub].
  - exists (S (length s)). split; [split|].
    + exists (seq 0 (S (length s))). split; [split|].
      * apply spaced_seq.
      * apply Forall_forall. intros p Hp. apply elem_of_seq in Hp.
        split; [lia | reflexivity].
      * apply length_seq.
    + intros ps [Hsp Hocc].
      pose proof (spaced_bounded _ _ _ (length s) Hsp) as Hb.
      rewrite Nat.sub_0_r in Hb. apply Hb.
      eapply Forall_impl; [exact Hocc|]. intros p [Hp _]. exact Hp.
    + unfold count. lia.
  - exists (count_scan (a :: sub) s 0). split; [split|reflexivity].
    + destruct (count_scan_lower (a :: sub) s 0) as (ps & H1 & H2 & H3);
        [discriminate|].
      exists ps. split; [split; assumption | exact H3].
    + intros ps [Hsp Hocc]. apply count_scan_upper; [discriminate | assumption..].
Qed.

End PyStrFacts.

(** C4: for every title, description and search phrase, the count field is
    the number of non-overlapping, case-sensitive occurrences of the phrase
    in the title plus that number in the description, with no word
    boundary; it covers zero, one and several occurrences, and the count is
    never negative. *)
Theorem count_is_sum_of_occurrences (title description search_phrase : str) :
  (exists a b,
      PyStr.occurrences search_phrase title a /\
      PyStr.occurrences search_phrase description b /\
      News.get_count title description search_phrase = (Z.of_nat a + Z.of_nat b)%Z) /\
  (0 <= News.get_count title description search_phrase)%Z /\
  (forall env element,
      let news := fst (News.make env element search_phrase) in
      News.count news =
      News.get_count (News.title news) (News.description news) search_phrase) /\
  News.get_count (u "Budget talks stall") (u "") (u "economy") = 0%Z /\
  News.get_count (u "The economy slows") (u "Economy in focus") (u "economy") = 1%Z /\
  News.get_count (u "economy, economy") (u "macroeconomy: economyeconomy")
                 (u "economy") = 5%Z /\
  News.get_count (u "aaaaa") (u "aaa") (u "aa") = 3%Z.
Proof.
  destruct (PyStrFacts.count_occurrences title search_phrase) as (a & Ha & Ea).
  destruct (PyStrFacts.count_occurrences description search_phrase) as (b & Hb & Eb).
  unfold News.get_count. rewrite Ea, Eb.
  split; [exists a, b; auto|].
  split; [lia|].
  split; [intros env element; reflexivity|].
  repeat split; reflexivity.
Qed.

(** ** [re.search] finds exactly the matches of the pattern *)

Module ReFacts.
Import Re.

(** A match never moves to the left, and a match that consumes nothing
    ends where it starts. *)
Lemma matches_shrinks r p q :
  matches r p q -> q = p \/ remaining q < remaining p.
Proof.
  induction 1 as [ | | | | | | r1 r2 p q t _ IH1 _ IH2 | | | | r p q t _ IH1 _ IH2];
    unfold remaining in *; simpl in *; auto;
    destruct IH1 as [->|H1], IH2 as [->|H2]; auto; right; lia.
Qed.

Lemma star_ends_sound r step :
  (forall p q, In q (step p) -> matches r p q) ->
  forall fuel p q, In q (star_ends step fuel p) -> matches (Star r) p q.
Proof.
  intros Hstep. induction fuel as [|f IH]; intros p q; simpl.
  - intros [<-|[]]. constructor.
  - intros [<-|H]; [constructor|].
    apply in_flat_map in H as (m & Hm & Hq).
    apply filter_In in Hm as [Hm _].
    eapply m_star_more; [apply Hstep, Hm | apply IH, Hq].
Qed.

Lemma ends_sound r : forall p q, In q (ends r p) -> matches r p q.
Proof.
  induction r as [ | c | f | | | r1 IH1 r2 IH2 | r1 IH1 r2 IH2 | r IH];
    intros [b s] q; simpl.
  - intros [<-|[]]. constructor.
  - destruct s as [|x s]; [intros []|].
    destruct (N.eqb_spec x c) as [->|]; [|intros []].
    intros [<-|[]]. constructor.
  - destruct s as [|x s]; [intros []|].
    destruct (f x) eqn:Hf; [|intros []].
    intros [<-|[]]. now constructor.
  - destruct b; [|intros []]. intros [<-|[]]. constructor.
  - destruct s as [|x [|y s]]; [intros [<-|[]]; constructor | | intros []].
    destruct (N.eqb_spec x 10) as [->|]; [|intros []].
    intros [<-|[]]. constructor.
  - intros H. apply in_flat_map in H as (m & Hm & Hq).
    econstructor; [apply IH1, Hm | apply IH2, Hq].
  - intros H. apply in_app_iff in H as [H|H].
    + apply m_alt_l, IH1, H.
    + apply m_alt_r, IH2, H.
  - apply star_ends_sound, IH.
Qed.

Lemma star_ends_complete r step :
  (forall p q, matches r p q -> In q (step p)) ->
  forall p q, matches (Star r) p q ->
  forall fuel, remaining p <= fuel -> In q (star_ends step fuel p).
Proof.
  intros Hstep p q H. remember (Star r) as sr eqn:E.
  induction H as [ | | | | | | | | | r0 p | r0 p m t Hpm _ Hmt IH]; try discriminate.
  - intros fuel _. destruct fuel; simpl; auto.
  - injection E as ->. intros fuel Hfuel.
    destruct (matches_shrinks _ _ _ Hpm) as [->|Hlt]; [now apply IH|].
    destruct fuel as [|f]; [lia|]. simpl. right.
    apply in_flat_map. exists m. split.
    + apply filter_In. split; [apply Hstep, Hpm | now apply Nat.ltb_lt].
    + apply IH; [reflexivity | lia].
Qed.

Lemma ends_complete r : forall p q, matches r p q -> In q (ends r p).
Proof.
  induction r as [ | c | f | | | r1 IH1 r2 IH2 | r1 IH1 r2 IH2 | r IH];
    intros p q H.
  - inversion H; subst. simpl. auto.
  - inversion H; subst. simpl. rewrite N.eqb_refl. simpl. auto.
  - inversion H; subst. simpl. rewrite H1. simpl. auto.
  - inversion H; subst. simpl. auto.
  - inversion H; subst; simpl; auto.
  - inversion H; subst. simpl. apply in_flat_map. eauto.
  - simpl. apply in_app_iff. inversion H; subst; auto.
  - simpl. eapply star_ends_complete; [exact IH | exact H | reflexivity].
Qed.

Theorem ends_spec r p q : In q (ends r p) <-> matches r p q.
Proof. split; [apply ends_sound | apply ends_complete]. Qed.

Lemma ends_none r p : ends r p = [] -> forall q, ~ matches r p q.
Proof. intros E q H. apply ends_complete in H. rewrite E in H. destruct H. Qed.

Lemma ends_some r p q l : ends r p = q :: l -> matches r p q.
Proof. intros E. apply ends_sound. rewrite E. now left. Qed.

Lemma search_from_spec r : forall s b,
  search_from r b s = true <->
  exists before rest q,
    s = before ++ rest /\ matches r (b && negb (PyStr.truthy before), rest) q.
Proof.
  induction s as [|c s IH]; intros b; simpl.
  - destruct (ends r _) as [|q l] eqn:E.
    + split; [intros H; discriminate H|]. intros (before & rest & q & Hs & Hm).
      symmetry in Hs. apply app_eq_nil in Hs as [-> ->]. simpl in Hm.
      rewrite andb_true_r in Hm. exfalso. exact (ends_none _ _ E _ Hm).
    + split; [intros _|reflexivity]. exists [], [], q. split; [reflexivity|].
      simpl. rewrite andb_true_r. exact (ends_some _ _ _ _ E).
  - destruct (ends r _) as [|q l] eqn:E.
    + rewrite IH. split.
      * intros (before & rest & q & -> & Hm). exists (c :: before), rest, q.
        split; [reflexivity|]. simpl. rewrite andb_false_r. exact Hm.
      * intros (before & rest & q & Hs & Hm). destruct before as [|x before].
        -- simpl in Hs. subst rest. simpl in Hm. rewrite andb_true_r in Hm.
           exfalso. exact (ends_none _ _ E _ Hm).
        -- injection Hs as -> ->. exists before, rest, q. split; [reflexivity|].
           simpl in Hm. rewrite andb_false_r in Hm. exact Hm.
    + split; [intros _|reflexivity]. exists [], (c :: s), q. split; [reflexivity|].
      simpl. rewrite andb_true_r. exact (ends_some _ _ _ _ E).
Qed.

Theorem search_found r s : search r s = true <-> found r s.
Proof.
  unfold search, found. rewrite search_from_spec.
  split; intros (before & rest & q & Hs & Hm); exists before, rest, q; (split; [exact Hs|]);
    destruct before; exact Hm.
Qed.

(** Patterns with the same classes end at the same places. *)
Lemma star_ends_ext step step' :
  (forall p, step p = step' p) ->
  forall fuel p, star_ends step fuel p = star_ends step' fuel p.
Proof.
  intros Hstep. induction fuel as [|f IH]; intros p; simpl; [reflexivity|].
  rewrite Hstep. f_equal. apply flat_map_ext. exact IH.
Qed.

Lemma ends_ext r : forall r', same_classes r r' -> forall p, ends r p = ends r' p.
Proof.
  induction r as [ | c | f | | | r1 IH1 r2 IH2 | r1 IH1 r2 IH2 | r IH];
    intros [ | c' | g | | | a b | a b | a]; simpl; try contradiction; intros H p;
    try reflexivity.
  - now subst.
  - destruct (snd p); [reflexivity|]. now rewrite H.
  - destruct H as [Ha Hb]. rewrite (IH1 _ Ha). apply flat_map_ext. intros q.
    apply IH2, Hb.
  - destruct H as [Ha Hb]. now rewrite (IH1 _ Ha), (IH2 _ Hb).
  - apply star_ends_ext. intros q. apply IH, H.
Qed.

Lemma search_ext r r' s : same_classes r r' -> search r s = search r' s.
Proof.
  intros H. unfold search. generalize true.
  induction s as [|c s IH]; intros b; simpl; rewrite (ends_ext _ _ H); [reflexivity|].
  now rewrite IH.
Qed.

End ReFacts.

Module MoneyFacts.
Import News.

(** The decimal digits restricted to ASCII, any class above. *)
Lemma money_pattern_ascii (is_digit : N -> bool) :
  (forall c, (c < 128)%N -> is_digit c = ascii_digit c) ->
  Re.same_classes (money_pattern is_digit)
    (money_pattern (fun c => if (c <? 128)%N then ascii_digit c else is_digit c)).
Proof.
  intros H.
  assert (Hd : forall x, is_digit x = (if (x <? 128)%N then ascii_digit x else is_digit x)).
  { intros x. destruct (N.ltb_spec x 128); [now apply H | reflexivity]. }
  assert (HD : forall x, negb (is_digit x) =
                         negb (if (x <? 128)%N then ascii_digit x else is_digit x)).
  { intros x. now rewrite <- Hd. }
  cbn. repeat split; auto.
Qed.

End MoneyFacts.

(** C3: the money flag is true iff the currency pattern is found in the
    title or in the description; wherever the decimal digits below 128 are
    the ASCII ones (as in Unicode), an item whose title or description is
    "$11.1", "$111,111.11", "11 dollars" or "11 USD" is flagged, and
    "no currency here" is not. *)
Theorem money_flag_iff_pattern_found (env : Env) (title description : str) :
  (News.get_money env title description = true <->
   Re.found (News.money_pattern (is_decimal env)) title \/
   Re.found (News.money_pattern (is_decimal env)) description) /\
  ((forall c, (c < 128)%N -> is_decimal env c = ascii_digit c) ->
   (forall candidate,
       In candidate [u "$11.1"; u "$111,111.11"; u "11 dollars"; u "11 USD"] ->
       News.get_money env candidate description = true /\
       News.get_money env title candidate = true) /\
   News.get_money env (u "no currency here") (u "no currency here") = false).
Proof.
  unfold News.get_money. split.
  - rewrite orb_true_iff, !ReFacts.search_found. reflexivity.
  - intros Hascii.
    pose proof (MoneyFacts.money_pattern_ascii _ Hascii) as Hsame. split.
    + intros candidate Hin.
      assert (Hc : Re.search (News.money_pattern (is_decimal env)) candidate = true).
      { rewrite (ReFacts.search_ext _ _ candidate Hsame).
        simpl in Hin. destruct Hin as [<-|[<-|[<-|[<-|[]]]]]; vm_compute; reflexivity. }
      rewrite Hc. split; [reflexivity | apply orb_true_r].
    + rewrite (ReFacts.search_ext _ _ _ Hsame). vm_compute. reflexivity.
Qed.

Lemma money_flag_witness :
  (forall candidate,
      In candidate [u "$11.1"; u "$111,111.11"; u "11 dollars"; u "11 USD"] ->
      News.get_money (Double.env 0) candidate (u "no currency here") = true /\
      News.get_money (Double.env 0) (u "Shares gain $11.1 million") candidate = true) /\
  News.get_money (Double.env 0) (u "no currency here") (u "no currency here") = false.
Proof.
  apply (proj2 (money_flag_iff_pattern_found (Double.env 0)
                  (u "Shares gain $11.1 million") (u "no currency here"))).
  intros c _. reflexivity.
Defined.

(** ** Pictures *)

Module Sha1Facts.
Import Sha1.
Local Open Scope N_scope.

Lemma hex_digit_inj a b : a < 16 -> b < 16 -> hex_digit a = hex_digit b -> a = b.
Proof.
  unfold hex_digit. intros Ha Hb.
  destruct (N.ltb_spec a 10), (N.ltb_spec b 10); lia.
Qed.

Lemma to_N_inj a b : Byte.to_N a = Byte.to_N b -> a = b.
Proof.
  intros H. pose proof (Byte.of_to_N a) as Ha. rewrite H, Byte.of_to_N in Ha.
  congruence.
Qed.

Lemma hex_byte_inj a b : hex_byte a = hex_byte b -> a = b.
Proof.
  unfold hex_byte. intros H. injection H as Hhi Hlo.
  pose proof (Byte.to_N_bounded a) as Ba. pose proof (Byte.to_N_bounded b) as Bb.
  apply hex_digit_inj in Hhi;
    [|apply N.Div0.div_lt_upper_bound; lia | apply N.Div0.div_lt_upper_bound; lia].
  apply hex_digit_inj in Hlo; [|apply N.mod_lt; lia | apply N.mod_lt; lia].
  apply to_N_inj.
  rewrite (N.div_mod (Byte.to_N a) 16), (N.div_mod (Byte.to_N b) 16) by lia.
  now rewrite Hhi, Hlo.
Qed.

Lemma hex_inj xs : forall ys, hex xs = hex ys -> xs = ys.
Proof.
  induction xs as [|x xs IH]; intros [|y ys]; simpl; try discriminate; [reflexivity|].
  intros H. injection H as Hhi Hlo Hrest.
  f_equal; [|now apply IH]. apply hex_byte_inj. unfold hex_byte. now rewrite Hhi, Hlo.
Qed.

End Sha1Facts.

(** C8: the picture file name is a function of the screenshot bytes alone,
    the SHA-1 hex digest followed by ".png": equal bytes give the same name
    (and two articles with the same image write the same file), and two
    names differ unless the SHA-1 digests collide. *)
Theorem picture_name_content_addressed (b1 b2 : list byte) :
  News.picture_name b1 = Sha1.hexdigest b1 ++ u ".png" /\
  (b1 = b2 -> News.picture_name b1 = News.picture_name b2) /\
  (News.picture_name b1 = News.picture_name b2 <-> Sha1.digest b1 = Sha1.digest b2) /\
  (forall e1 e2 n1 n2 a1 a2,
      img_screenshot e1 n1 = Found b1 -> img_screenshot e2 n2 = Found b1 ->
      News.pic_name (News.get_picture_loop (S a1) e1 n1) = News.picture_name b1 /\
      News.pic_file (News.get_picture_loop (S a1) e1 n1) =
        Some (output_path (News.picture_name b1), b1) /\
      News.pic_file (News.get_picture_loop (S a2) e2 n2) =
      News.pic_file (News.get_picture_loop (S a1) e1 n1)) /\
  News.picture_name [] = u "da39a3ee5e6b4b0d3255bfef95601890afd80709.png" /\
  News.picture_name (list_byte_of_string "abc") =
    u "a9993e364706816aba3e25717850c26c9cd0d89d.png".
Proof.
  split; [reflexivity|]. split; [now intros ->|]. split; [|split].
  - unfold News.picture_name, Sha1.hexdigest. split.
    + intros H. apply app_inv_tail in H. now apply Sha1Facts.hex_inj.
    + now intros ->.
  - intros e1 e2 n1 n2 a1 a2 H1 H2. simpl. rewrite H1, H2. simpl. auto.
  - split; vm_compute; reflexivity.
Qed.

Module NewsFacts.
Import News.

(** [k] stale answers in a row cost [k] attempts and [k] queries. *)
Lemma get_picture_loop_stale element k : forall attempts n,
  (forall i, i < k -> img_screenshot element (n + i) = StaleElementReferenceException) ->
  k <= attempts ->
  get_picture_loop attempts element n = get_picture_loop (attempts - k) element (n + k).
Proof.
  induction k as [|k IH]; intros attempts n Hstale Hk.
  - now rewrite Nat.sub_0_r, Nat.add_0_r.
  - destruct attempts as [|a]; [lia|]. simpl.
    pose proof (Hstale 0 ltac:(lia)) as H0. rewrite Nat.add_0_r in H0. rewrite H0.
    rewrite IH; [|intros i Hi|lia].
    + f_equal. lia.
    + replace (S n + i) with (n + S i) by lia. apply Hstale. lia.
Qed.

End NewsFacts.

(** C7: in picture extraction, after [k] stale answers (each costs one
    attempt and is retried), a missing image element ends the field empty
    at once, the attempts left untouched and no further query made; an
    answer names the picture; five stale answers exhaust the attempts and
    leave the field empty, and the reader returns in every case. *)
Theorem picture_retry_policy (element : WebElement) (k : nat)
    (Hstale : forall i, i < k ->
                img_screenshot element i = StaleElementReferenceException) :
  (k < News.ATTEMPTS -> img_screenshot element k = NoSuchElementException ->
   News.get_picture element =
   {| News.pic_name := []; News.pic_file := None;
      News.pic_attempts_left := News.ATTEMPTS - k; News.pic_queries := S k |}) /\
  (forall pic_bytes,
   k < News.ATTEMPTS -> img_screenshot element k = Found pic_bytes ->
   News.get_picture element =
   {| News.pic_name := News.picture_name pic_bytes;
      News.pic_file := Some (output_path (News.picture_name pic_bytes), pic_bytes);
      News.pic_attempts_left := News.ATTEMPTS - k; News.pic_queries := S k |}) /\
  (News.ATTEMPTS <= k ->
   News.get_picture element =
   {| News.pic_name := []; News.pic_file := None;
      News.pic_attempts_left := 0; News.pic_queries := News.ATTEMPTS |}).
Proof.
  unfold News.get_picture. split; [|split].
  - intros Hk Hno.
    rewrite (NewsFacts.get_picture_loop_stale element k); [|exact Hstale|lia].
    destruct (News.ATTEMPTS - k) as [|a] eqn:E; [lia|]. simpl. now rewrite Hno.
  - intros pic_bytes Hk Hfound.
    rewrite (NewsFacts.get_picture_loop_stale element k); [|exact Hstale|lia].
    destruct (News.ATTEMPTS - k) as [|a] eqn:E; [lia|]. simpl. now rewrite Hfound.
  - intros Hk.
    rewrite (NewsFacts.get_picture_loop_stale element News.ATTEMPTS);
      [reflexivity | intros i Hi; apply Hstale; lia | lia].
Qed.

Lemma picture_retry_policy_witness :
  News.get_picture (Double.flaky_image 2 NoSuchElementException) =
  {| News.pic_name := []; News.pic_file := None;
     News.pic_attempts_left := 3; News.pic_queries := 3 |}.
Proof.
  refine (proj1 (picture_retry_policy
                   (Double.flaky_image 2 NoSuchElementException) 2 _) _ _).
  - intros i Hi. destruct i as [|[|i]]; [reflexivity | reflexivity | lia].
  - unfold News.ATTEMPTS. lia.
  - reflexivity.
Defined.

(** ** The category filter *)

Module FilterFacts.
Import APNewsCollector.

Section Filter.
Variable env : Env.
Variable br : Browser.

Lemma first_wanted_in (labels : list WebElement) (categories : gset str)
    element element_text :
  first_wanted env labels categories = Some (element, element_text) ->
  element_text ∈ categories.
Proof.
  induction labels as [|l labels IH]; cbn [first_wanted]; [intros H; discriminate H|].
  destruct (bool_decide_reflect (lower env (text l) ∈ categories)) as [Hl|_].
  - intros [= <- <-]. exact Hl.
  - exact IH.
Qed.

(** The fuel [filter_news] gives its loop is enough. *)
Lemma filter_loop_total : forall fuel (categories : gset str) (w : world br),
  size categories <= fuel -> exists w', filter_loop env fuel categories w = Some w'.
Proof.
  induction fuel as [|f IH]; intros categories w Hsize; cbn [filter_loop].
  - replace (size categories) with 0 by lia. cbn. eauto.
  - destruct (Nat.eqb_spec (size categories) 0) as [|Hpos]; [eauto|].
    destruct (first_wanted _ _ _) as [[element element_text]|] eqn:E; [|eauto].
    apply IH. apply first_wanted_in in E.
    assert (Hsub : {[element_text]} ⊆ categories) by set_solver.
    pose proof (size_difference _ _ Hsub) as Hd.
    rewrite size_singleton in Hd. lia.
Qed.

Lemma filter_news_total (c : t) (w : world br) :
  exists w', filter_news env c w = Some w'.
Proof. unfold filter_news. apply filter_loop_total. lia. Qed.

(** With the working set [{""}], the label found is the first one whose
    text is empty. *)
Lemma first_wanted_empty (labels : list WebElement) :
  (forall s, lower env s = [] <-> s = []) ->
  first_wanted env labels {[ [] ]} =
  option_map (fun element => (element, []))
             (find (fun element => negb (PyStr.truthy (text element))) labels).
Proof.
  intros Hlower. induction labels as [|l labels IH]; simpl; [reflexivity|].
  destruct (bool_decide_reflect (lower env (text l) ∈ ({[ [] ]} : gset str))) as [Hl|Hl].
  - apply elem_of_singleton in Hl. rewrite Hl.
    apply (proj1 (Hlower _)) in Hl. rewrite Hl. reflexivity.
  - destruct (text l) as [|x s] eqn:E; simpl; [|exact IH].
    exfalso. apply Hl. apply elem_of_singleton. now apply (proj2 (Hlower _)).
Qed.

End Filter.
End FilterFacts.

(** C9: with the empty categories string, splitting on "," gives the one
    piece "", so the working set is {""} and not the empty set; the filter
    loop then opens the filter panel, lists the checkbox labels once, and
    clicks the first label whose text is empty if there is one: an empty
    categories input is not a no-op. *)
Theorem empty_categories_still_scan (env : Env) (br : Browser)
    (c : APNewsCollector.t) (w : APNewsCollector.world br)
    (Hlower : forall s, lower env s = [] <-> s = [])
    (Hempty : APNewsCollector.categories c = []) :
  let sorted :=
    if PyStr.truthy (APNewsCollector.sort_by c)
    then APNewsCollector.secure_select_from_list_by_label
           (Css APNewsCollector.SORT_SELECT) (APNewsCollector.sort_by c) w
    else w in
  let scanned :=
    APNewsCollector.note (APNewsCollector.Listed APNewsCollector.FILTER_LABELS)
      (APNewsCollector.secure_click_element (Css APNewsCollector.FILTER_HEADING) sorted) in
  let labels :=
    get_webelements br APNewsCollector.FILTER_LABELS (APNewsCollector.page scanned) in
  PyStr.split (APNewsCollector.categories c) (u ",") = PyStr.SplitOk [[]] /\
  APNewsCollector.category_set env (APNewsCollector.categories c) = {[ [] ]} /\
  size (APNewsCollector.category_set env (APNewsCollector.categories c)) = 1 /\
  APNewsCollector.filter_news env c w =
    Some (match find (fun element => negb (PyStr.truthy (text element))) labels with
          | Some element =>
            APNewsCollector.secure_click_element (Element element) scanned
          | None => scanned
          end) /\
  (forall w', APNewsCollector.filter_news env c w = Some w' ->
     exists later,
       APNewsCollector.log w' =
       later ++ [APNewsCollector.Listed APNewsCollector.FILTER_LABELS;
                 APNewsCollector.Clicked (Css APNewsCollector.FILTER_HEADING)]
             ++ APNewsCollector.log w).
Proof.
  intros sorted scanned labels.
  assert (Hset : APNewsCollector.category_set env (APNewsCollector.categories c) = {[ [] ]}).
  { unfold APNewsCollector.category_set. rewrite Hempty. cbn.
    rewrite (proj2 (Hlower []) eq_refl). apply (right_id_L ∅ (∪)). }
  assert (Hrun : APNewsCollector.filter_news env c w =
    Some (match find (fun element => negb (PyStr.truthy (text element))) labels with
          | Some element =>
            APNewsCollector.secure_click_element (Element element) scanned
          | None => scanned
          end)).
  { unfold APNewsCollector.filter_news. fold sorted. rewrite Hset, size_singleton.
    cbn [APNewsCollector.filter_loop]. rewrite size_singleton. cbn [Nat.eqb].
    fold scanned. fold labels.
    rewrite FilterFacts.first_wanted_empty by exact Hlower.
    destruct (find _ labels) as [element|]; cbn; [|reflexivity].
    rewrite difference_diag_L, size_empty. reflexivity. }
  split; [now rewrite Hempty|]. split; [exact Hset|].
  split; [rewrite Hset; apply size_singleton|]. split; [exact Hrun|].
  intros w' Hw'. rewrite Hrun in Hw'. injection Hw' as <-.
  assert (Hlog : APNewsCollector.log sorted = APNewsCollector.log w).
  { unfold sorted. now destruct (PyStr.truthy _). }
  destruct (find _ labels) as [element|].
  - exists [APNewsCollector.Clicked (Element element)]. cbn. now rewrite Hlog.
  - exists []. cbn. now rewrite Hlog.
Qed.

Lemma empty_categories_witness :
  let br := Double.browser [] [Double.label "Videos"; Double.label ""] in
  let c := APNewsCollector.init (Double.env 0) (u "economy") [] 0 (u "Newest") 170 in
  exists w',
    APNewsCollector.filter_news (Double.env 0) c (APNewsCollector.start br) = Some w' /\
    APNewsCollector.log w' =
    [APNewsCollector.Clicked (Element (Double.label ""));
     APNewsCollector.Listed APNewsCollector.FILTER_LABELS;
     APNewsCollector.Clicked (Css APNewsCollector.FILTER_HEADING)].
Proof.
  intros br c.
  assert (Hlower : forall s, lower (Double.env 0) s = [] <-> s = []).
  { intros s. destruct s; split; intros H; (reflexivity || discriminate H). }
  destruct (empty_categories_still_scan (Double.env 0) br c
              (APNewsCollector.start br) Hlower eq_refl)
    as (_ & _ & _ & Hrun & _).
  eexists. split; [exact Hrun | reflexivity].
Defined.

(** ** The collection loop *)

Module LoopFacts.
Import APNewsCollector.
Local Open Scope Z_scope.

(** *** What a well-formed record tells *)

Lemma budget_log_bounds l rf :
  budget_log l rf -> 0 <= rf <= 5 /\ forall n, In (Faults n) l -> 0 <= n <= 5.
Proof.
  induction 1 as [ | l rf s _ [IHb IHl] Hpos | l rf x _ [IHb IHl] Hpos
                 | l rf news _ [IHb IHl] Hpos | l rf news _ [IHb IHl] Hpos ];
    unfold FAULTS_TOLERANCE in *; (split; [lia|]); intros n Hin; simpl in Hin;
    repeat (destruct Hin as [Hin|Hin]; [try discriminate Hin; try (injection Hin as <-; lia)|]);
    try (now apply IHl); try contradiction.
Qed.

Lemma budget_log_latest l rf :
  budget_log l rf -> exists rest, faults_of l = rf :: rest.
Proof.
  induction 1 as [ | l rf s _ IH _ | l rf x _ IH _ | l rf news _ IH _ | l rf news _ IH _ ];
    simpl; eauto.
Qed.

Lemma budget_log_counts_down l rf : budget_log l rf -> counts_down (faults_of l).
Proof.
  induction 1 as [ | l rf s _ IH _ | l rf x H IH Hpos | l rf news H IH Hpos
                 | l rf news H IH Hpos ]; try exact IH.
  - reflexivity.
  - destruct (budget_log_latest _ _ H) as [rest E]. cbn [faults_of]. rewrite E in *.
    cbn [counts_down]. split; [right; split; [exact Hpos | reflexivity] | exact IH].
  - destruct (budget_log_latest _ _ H) as [rest E]. cbn [faults_of]. rewrite E in *.
    cbn [counts_down]. split; [left; reflexivity | exact IH].
Qed.

(** The head of a record is a counter assignment, a listing or a click. *)
Lemma budget_log_head l rf :
  budget_log l rf ->
  exists e l', l = e :: l' /\
    (e = Faults rf \/ (0 < rf /\ ((exists s, e = Listed s) \/ exists x, e = Clicked x))).
Proof.
  destruct 1; eexists _, _; (split; [reflexivity|]); eauto 6.
Qed.

(** Nothing is recorded after the counter is set to 0. *)
Lemma budget_log_after_zero l rf :
  budget_log l rf ->
  forall later earlier, l = later ++ Faults 0 :: earlier -> later = [] /\ rf = 0.
Proof.
  assert (Hstop : forall l0 rf0, budget_log l0 rf0 -> 0 < rf0 ->
            (forall later earlier, l0 = later ++ Faults 0 :: earlier ->
                                   later = [] /\ rf0 = 0) ->
            forall later earlier, l0 <> later ++ Faults 0 :: earlier).
  { intros l0 rf0 H Hpos IH later earlier E. destruct (IH _ _ E) as [_ E0]. lia. }
  induction 1 as [ | l rf s H IH Hpos | l rf x H IH Hpos | l rf news H IH Hpos
                 | l rf news H IH Hpos ]; intros later earlier E;
    try pose proof (Hstop _ _ H Hpos IH) as Hs.
  - destruct later as [|e [|e' later]]; discriminate E.
  - destruct later as [|e later]; [discriminate E|]. injection E as _ E.
    exfalso. exact (Hs _ _ E).
  - destruct later as [|e later]; [discriminate E|]. injection E as _ E.
    exfalso. exact (Hs _ _ E).
  - destruct later as [|e later].
    + injection E as E _. split; [reflexivity | lia].
    + injection E as _ E. destruct later as [|e' later]; [discriminate E|].
      injection E as _ E. exfalso. exact (Hs _ _ E).
  - destruct later as [|e later].
    + injection E as E _. unfold FAULTS_TOLERANCE in E. lia.
    + injection E as _ E. destruct later as [|e' later]; [discriminate E|].
      injection E as _ E. destruct later as [|e'' later]; [discriminate E|].
      injection E as _ E. exfalso. exact (Hs _ _ E).
Qed.

(** A persisted row is followed at once by the reset of the counter. *)
Lemma budget_log_persisted l rf :
  budget_log l rf ->
  forall later r earlier, l = later ++ Persisted r :: earlier ->
  exists later', later = later' ++ [Faults 5].
Proof.
  induction 1 as [ | l rf s H IH Hpos | l rf x H IH Hpos | l rf news H IH Hpos
                 | l rf news H IH Hpos ]; intros later r earlier E.
  - destruct later as [|e [|e' later]]; discriminate E.
  - destruct later as [|e later]; [discriminate E|]. injection E as <- E.
    destruct (IH _ _ _ E) as [later' ->]. now exists (Listed s :: later').
  - destruct later as [|e later]; [discriminate E|]. injection E as <- E.
    destruct (IH _ _ _ E) as [later' ->]. now exists (Clicked x :: later').
  - destruct later as [|e later]; [discriminate E|]. injection E as <- E.
    destruct later as [|e' later]; [discriminate E|]. injection E as <- E.
    destruct (IH _ _ _ E) as [later' ->].
    now exists (Faults (rf - 1) :: Extracted news :: later').
  - destruct later as [|e later]; [discriminate E|]. injection E as <- E.
    destruct later as [|e' later]; [now exists []|]. injection E as <- E.
    destruct later as [|e'' later]; [discriminate E|]. injection E as <- E.
    destruct (IH _ _ _ E) as [later' ->].
    now exists (Faults FAULTS_TOLERANCE :: Persisted (News.row news)
                  :: Extracted news :: later').
Qed.

(** The counter is set to 5 at the start and after a persisted row only. *)
Lemma budget_log_reset l rf :
  budget_log l rf ->
  forall later earlier, l = later ++ Faults 5 :: earlier ->
  earlier = [] \/ exists r earlier', earlier = Persisted r :: earlier'.
Proof.
  induction 1 as [ | l rf s H IH Hpos | l rf x H IH Hpos | l rf news H IH Hpos
                 | l rf news H IH Hpos ]; intros later earlier E.
  - destruct later as [|e [|e' later]]; try discriminate E. injection E as <-. now left.
  - destruct later as [|e later]; [discriminate E|]. injection E as _ E. eauto.
  - destruct later as [|e later]; [discriminate E|]. injection E as _ E. eauto.
  - destruct later as [|e later].
    + injection E as E _. destruct (budget_log_bounds _ _ H) as [Hb _]. lia.
    + injection E as _ E. destruct later as [|e' later]; [discriminate E|].
      injection E as _ E. eauto.
  - destruct later as [|e later].
    + injection E as <-. right. eauto.
    + injection E as _ E. destruct later as [|e' later]; [discriminate E|].
      injection E as _ E. destruct later as [|e'' later]; [discriminate E|].
      injection E as _ E. eauto.
Qed.

(** *** What the loop writes *)

Section Loop.
Variable env : Env.
Variable br : Browser.

(** The turn of the [for] loop, with the [News] object named. *)
Lemma visit_eq (c : t) (element : WebElement) (rf : Z) (w : world br) :
  visit env c element rf w =
  let w1 := snd (read_clock env w) in
  let news := fst (News.make env element (search_phrase c)) in
  let file := snd (News.make env element (search_phrase c)) in
  let w2 := note (Extracted news) (write_file file w1) in
  if (timeout c <=? clock env (readings w)) || (rf =? 0) then (Return, (rf, w1))
  else if negb (page_contains_element br element (page w)) then (Raise, (rf, w1))
  else if negb (PyStr.truthy (News.date news))
  then (Next, (rf - 1, note (Faults (rf - 1)) w2))
  else if time_difference_in_months env (News.date news) (now c) >? months c
  then (Next, (rf - 1, note (Faults (rf - 1)) w2))
  else (Next, (FAULTS_TOLERANCE,
               note (Faults FAULTS_TOLERANCE) (save_elements news w2))).
Proof.
  unfold visit. cbn [read_clock snd fst page].
  destruct (News.make env element (search_phrase c)) as [news file]. reflexivity.
Qed.

(** The turn for an element that passes the guard and is on the page. *)
Lemma visit_item (c : t) (element : WebElement) (rf : Z) (w : world br) :
  clock env (readings w) < timeout c -> rf <> 0 ->
  page_contains_element br element (page w) = true ->
  visit env c element rf w =
  let news := fst (News.make env element (search_phrase c)) in
  let file := snd (News.make env element (search_phrase c)) in
  let w2 := note (Extracted news) (write_file file (snd (read_clock env w))) in
  if negb (PyStr.truthy (News.date news))
  then (Next, (rf - 1, note (Faults (rf - 1)) w2))
  else if time_difference_in_months env (News.date news) (now c) >? months c
  then (Next, (rf - 1, note (Faults (rf - 1)) w2))
  else (Next, (FAULTS_TOLERANCE,
               note (Faults FAULTS_TOLERANCE) (save_elements news w2))).
Proof.
  intros Hdeadline Hrf Hpresent. rewrite visit_eq. cbv zeta.
  apply Z.leb_gt in Hdeadline. apply Z.eqb_neq in Hrf.
  now rewrite Hdeadline, Hrf, Hpresent.
Qed.

(** The turn for an element with a date. *)
Lemma visit_dated (c : t) (element : WebElement) (rf : Z) (w : world br) :
  clock env (readings w) < timeout c -> rf <> 0 ->
  page_contains_element br element (page w) = true ->
  News.date (fst (News.make env element (search_phrase c))) <> [] ->
  visit env c element rf w =
  let news := fst (News.make env element (search_phrase c)) in
  let file := snd (News.make env element (search_phrase c)) in
  let w2 := note (Extracted news) (write_file file (snd (read_clock env w))) in
  if time_difference_in_months env (News.date news) (now c) >? months c
  then (Next, (rf - 1, note (Faults (rf - 1)) w2))
  else (Next, (FAULTS_TOLERANCE,
               note (Faults FAULTS_TOLERANCE) (save_elements news w2))).
Proof.
  intros Hdeadline Hrf Hpresent Hdate. rewrite visit_item by assumption. cbv zeta.
  destruct (News.date _) as [|x s]; [contradiction | reflexivity].
Qed.

Lemma worksheet_write_file (f : option (str * list byte)) (w : world br) :
  worksheet (write_file f w) = worksheet w.
Proof. destruct f; reflexivity. Qed.

Lemma log_write_file (f : option (str * list byte)) (w : world br) :
  log (write_file f w) = log w.
Proof. destruct f; reflexivity. Qed.

Lemma visit_log (c : t) (element : WebElement) (rf : Z) (w : world br)
    (new old : list event) fl rf' w' :
  budget_log new rf -> log w = new ++ old ->
  visit env c element rf w = (fl, (rf', w')) ->
  exists new', log w' = new' ++ old /\ budget_log new' rf'.
Proof.
  intros Hlog Hw. rewrite visit_eq. cbv zeta.
  destruct (budget_log_bounds _ _ Hlog) as [Hb _].
  destruct ((timeout c <=? clock env (readings w)) || (rf =? 0)) eqn:Hguard.
  { intros [= <- <- <-]. exists new. split; [exact Hw | exact Hlog]. }
  apply orb_false_iff in Hguard as [_ Hrf]. apply Z.eqb_neq in Hrf.
  assert (Hpos : 0 < rf) by lia.
  destruct (negb (page_contains_element br element (page w))).
  { intros [= <- <- <-]. exists new. split; [exact Hw | exact Hlog]. }
  set (news := fst (News.make env element (search_phrase c))).
  set (file := snd (News.make env element (search_phrase c))).
  destruct (negb (PyStr.truthy (News.date news))).
  { intros [= <- <- <-]. exists (Faults (rf - 1) :: Extracted news :: new).
    split; [|now constructor]. cbn. now rewrite log_write_file, Hw. }
  destruct (time_difference_in_months env (News.date news) (now c) >? months c).
  { intros [= <- <- <-]. exists (Faults (rf - 1) :: Extracted news :: new).
    split; [|now constructor]. cbn. now rewrite log_write_file, Hw. }
  intros [= <- <- <-].
  exists (Faults FAULTS_TOLERANCE :: Persisted (News.row news) :: Extracted news :: new).
  split; [|exact (@bl_persist _ _ news Hlog Hpos)]. cbn. now rewrite log_write_file, Hw.
Qed.

Lemma visit_all_log (c : t) (elements : list WebElement) :
  forall (rf : Z) (w : world br) (new old : list event) fl rf' w',
  budget_log new rf -> log w = new ++ old ->
  visit_all env c elements rf w = (fl, (rf', w')) ->
  exists new', log w' = new' ++ old /\ budget_log new' rf'.
Proof.
  induction elements as [|element rest IH]; intros rf w new old fl rf' w' Hlog Hw;
    cbn [visit_all].
  - intros [= <- <- <-]. eauto.
  - destruct (visit env c element rf w) as [fl1 [rf1 w1]] eqn:E.
    destruct (visit_log _ _ _ _ _ _ _ _ _ Hlog Hw E) as (new1 & Hw1 & Hlog1).
    destruct fl1.
    + intros H. exact (IH _ _ _ _ _ _ _ Hlog1 Hw1 H).
    + intros [= <- <- <-]. eauto.
    + intros [= <- <- <-]. eauto.
Qed.

(** With nothing left of the budget the loop ends at once. *)
Lemma get_news_loop_spent (fuel : nat) (c : t) (rf : Z) (w : world br) :
  rf <= 0 -> exists out, get_news_loop env fuel c rf w = (out, (rf, w)).
Proof.
  intros Hrf. destruct fuel as [|f]; cbn [get_news_loop]; [eauto|].
  destruct (Z.gtb_spec rf 0); [lia | eauto].
Qed.

Lemma get_news_loop_log (c : t) : forall (fuel : nat) (rf : Z) (w : world br)
    (new old : list event) out rf' w',
  budget_log new rf -> log w = new ++ old ->
  get_news_loop env fuel c rf w = (out, (rf', w')) ->
  exists new', log w' = new' ++ old /\
    (budget_log new' rf' \/
     (rf' = 0 /\ exists tail, new' = Clicked (Css NEXT_PAGE) :: tail /\ budget_log tail 0)).
Proof.
  induction fuel as [|f IH]; intros rf w new old out rf' w' Hlog Hw;
    cbn [get_news_loop].
  - intros [= <- <- <-]. eauto.
  - destruct (Z.gtb_spec rf 0) as [Hpos|_]; [|intros [= <- <- <-]; eauto].
    set (w0 := note (Listed RESULT_ITEMS) w).
    assert (Hw0 : log w0 = (Listed RESULT_ITEMS :: new) ++ old) by (cbn; now rewrite Hw).
    assert (Hlog0 : budget_log (Listed RESULT_ITEMS :: new) rf) by now constructor.
    destruct (visit_all env c _ rf w0) as [fl [rf1 w1]] eqn:E.
    destruct (visit_all_log _ _ _ _ _ _ _ _ _ Hlog0 Hw0 E) as (new1 & Hw1 & Hlog1).
    destruct fl; [|intros [= <- <- <-]; eauto..].
    destruct (PyStr.split _ _) as [[|current [|total [|? ?]]]|];
      try (intros [= <- <- <-]; eauto).
    destruct (PyStr.lt current total); [|intros [= <- <- <-]; eauto].
    set (w2 := secure_click_element (Css NEXT_PAGE) w1).
    assert (Hw2 : log w2 = (Clicked (Css NEXT_PAGE) :: new1) ++ old)
      by (cbn; now rewrite Hw1).
    destruct (budget_log_bounds _ _ Hlog1) as [Hb _].
    destruct (Z.eq_dec rf1 0) as [->|Hne].
    + destruct (get_news_loop_spent f c 0 w2) as [out' Hout]; [lia|].
      rewrite Hout. intros [= <- <- <-].
      exists (Clicked (Css NEXT_PAGE) :: new1). split; [exact Hw2|]. right. eauto.
    + apply (IH _ _ _ _ _ _ _ (@bl_clicked _ _ _ Hlog1 ltac:(lia)) Hw2).
Qed.

(** The end of a page that was read to its last element: the two page
    counts are compared as strings. *)
Lemma get_news_loop_page (f : nat) (c : t) (rf rf1 : Z) (w w1 : world br)
    (current total : str) :
  0 < rf ->
  visit_all env c (get_webelements br RESULT_ITEMS (page w)) rf
            (note (Listed RESULT_ITEMS) w) = (Next, (rf1, w1)) ->
  PyStr.split (get_webelement_text br PAGE_COUNTS (page w1)) (u " of ") =
    PyStr.SplitOk [current; total] ->
  get_news_loop env (S f) c rf w =
  if PyStr.lt current total
  then get_news_loop env f c rf1 (secure_click_element (Css NEXT_PAGE) w1)
  else (Done, (rf1, w1)).
Proof.
  intros Hpos Hpage Hsplit. cbn [get_news_loop].
  destruct (Z.gtb_spec rf 0); [|lia].
  change (page (note (Listed RESULT_ITEMS) w)) with (page w).
  now rewrite Hpage, Hsplit.
Qed.

End Loop.
End LoopFacts.

(** The scenario of the specification: two pages of three and two fresh
    items; the worksheet gets the header and five rows, and the run ends on
    the second page with the budget intact. *)
Example two_pages_five_rows :
  let env := Double.env 1716200000 in
  let c := APNewsCollector.init env (u "economy") [] 1 (u "Newest") 170 in
  let item := Double.article "Economy grows" "The economy adds $11.1 billion"
                             1716199995000 in
  let br := Double.browser [([item; item; item], "1 of 2"%string);
                            ([item; item], "2 of 2"%string)] [] in
  option_map
    (fun r => (fst r, fst (snd r),
               length (APNewsCollector.worksheet (snd (snd r))),
               APNewsCollector.page (snd (snd r))))
    (APNewsCollector.collect_news env br 10 c) =
  Some (APNewsCollector.Done, 5%Z, 6%nat, 1%nat).
Proof. vm_compute. reflexivity. Qed.

(** A page of stale news: one fresh item, then an undated one and five items
    months old; the counter goes 5, 5, 4, 3, 2, 1, 0 and the last item of
    the page is never extracted. *)
Example budget_runs_out :
  let env := Double.env 1716200000 in
  let c := APNewsCollector.init env (u "economy") [] 1 (u "Newest") 170 in
  let fresh := Double.article "Economy grows" "" 1716199995000 in
  let old := Double.article "Economy shrank" "" 1700000000000 in
  let br := Double.browser
              [([fresh; Double.undated "Economy"; old; old; old; old; fresh],
                "1 of 3"%string)] [] in
  let after := APNewsCollector.get_news env 10 c (APNewsCollector.start br) in
  fst after = APNewsCollector.Done /\
  APNewsCollector.faults_of (APNewsCollector.log (snd (snd after))) =
    [0; 1; 2; 3; 4; 5; 5]%Z /\
  length (APNewsCollector.worksheet (snd (snd after))) = 1%nat.
Proof. vm_compute. repeat split; reflexivity. Qed.

(** C10: throughout the collection loop the fault counter stays between 0
    and 5: it starts at 5, every later value is one less than a positive
    predecessor or 5 again, it is set to 5 exactly at the start and right
    after a persisted row, and once it is 0 nothing more is extracted or
    persisted: at most one click on the next-page control follows.  The
    record [new] holds the events of the run, latest first; the statement
    holds for every amount of fuel, so for every prefix of a run. *)
Theorem fault_budget_invariant (env : Env) (br : Browser) (fuel : nat)
    (c : APNewsCollector.t) (w : APNewsCollector.world br) :
  let '(out, (remaining_faults, w')) := APNewsCollector.get_news env fuel c w in
  exists new,
    APNewsCollector.log w' = new ++ APNewsCollector.log w /\
    (0 <= remaining_faults <= 5)%Z /\
    hd_error (APNewsCollector.faults_of new) = Some remaining_faults /\
    (forall n, In (APNewsCollector.Faults n) new -> (0 <= n <= 5)%Z) /\
    APNewsCollector.counts_down (APNewsCollector.faults_of new) /\
    (forall later r earlier,
        new = later ++ APNewsCollector.Persisted r :: earlier ->
        exists later', later = later' ++ [APNewsCollector.Faults 5]) /\
    (forall later earlier,
        new = later ++ APNewsCollector.Faults 5 :: earlier ->
        earlier = [] \/
        exists r earlier', earlier = APNewsCollector.Persisted r :: earlier') /\
    (forall later earlier,
        new = later ++ APNewsCollector.Faults 0 :: earlier ->
        later = [] \/
        later = [APNewsCollector.Clicked (Css APNewsCollector.NEXT_PAGE)]).
Proof.
  destruct (APNewsCollector.get_news env fuel c w) as [out [rf w']] eqn:E.
  unfold APNewsCollector.get_news in E.
  apply (LoopFacts.get_news_loop_log env br c fuel _ _
           [APNewsCollector.Faults APNewsCollector.FAULTS_TOLERANCE]
           (APNewsCollector.log w)) in E; [|constructor|reflexivity].
  destruct E as (new & Hw' & [Hlog|(-> & tail & -> & Hlog)]); exists new || exists
    (APNewsCollector.Clicked (Css APNewsCollector.NEXT_PAGE) :: tail);
    (split; [exact Hw'|]);
    destruct (LoopFacts.budget_log_bounds _ _ Hlog) as [Hb Hall];
    destruct (LoopFacts.budget_log_latest _ _ Hlog) as [rest Hlatest].
  - split; [exact Hb|]. split; [now rewrite Hlatest|]. split; [exact Hall|].
    split; [exact (LoopFacts.budget_log_counts_down _ _ Hlog)|].
    split; [exact (LoopFacts.budget_log_persisted _ _ Hlog)|].
    split; [exact (LoopFacts.budget_log_reset _ _ Hlog)|].
    intros later earlier Hsplit. left.
    exact (proj1 (LoopFacts.budget_log_after_zero _ _ Hlog _ _ Hsplit)).
  - split; [lia|]. split; [cbn; now rewrite Hlatest|].
    split; [intros n [Hn|Hn]; [discriminate Hn | now apply Hall]|].
    split; [exact (LoopFacts.budget_log_counts_down _ _ Hlog)|].
    split; [|split].
    + intros [|e later] r earlier Hsplit; [discriminate Hsplit|].
      injection Hsplit as <- Hsplit.
      destruct (LoopFacts.budget_log_persisted _ _ Hlog _ _ _ Hsplit) as [later' ->].
      now exists (APNewsCollector.Clicked (Css APNewsCollector.NEXT_PAGE) :: later').
    + intros [|e later] earlier Hsplit; [discriminate Hsplit|].
      injection Hsplit as _ Hsplit.
      exact (LoopFacts.budget_log_reset _ _ Hlog _ _ Hsplit).
    + intros [|e later] earlier Hsplit; [discriminate Hsplit|].
      injection Hsplit as <- Hsplit. right.
      now rewrite (proj1 (LoopFacts.budget_log_after_zero _ _ Hlog _ _ Hsplit)).
Qed.

(** C6: an extracted item (deadline not reached, budget left, element on
    the page) whose date is the empty string is not persisted, costs the
    fault budget exactly 1, and the loop goes on with the next element. *)
Theorem undated_item_is_skipped (env : Env) (br : Browser) (c : APNewsCollector.t)
    (element : WebElement) (remaining_faults : Z) (w : APNewsCollector.world br)
    (Hdeadline : (clock env (APNewsCollector.readings w) < APNewsCollector.timeout c)%Z)
    (Hbudget : remaining_faults <> 0%Z)
    (Hpresent : page_contains_element br element (APNewsCollector.page w) = true)
    (Hdate : News.date (fst (News.make env element (APNewsCollector.search_phrase c))) = []) :
  let news := fst (News.make env element (APNewsCollector.search_phrase c)) in
  let after := APNewsCollector.visit env c element remaining_faults w in
  fst after = APNewsCollector.Next /\
  fst (snd after) = (remaining_faults - 1)%Z /\
  APNewsCollector.worksheet (snd (snd after)) = APNewsCollector.worksheet w /\
  APNewsCollector.log (snd (snd after)) =
    APNewsCollector.Faults (remaining_faults - 1) :: APNewsCollector.Extracted news
      :: APNewsCollector.log w /\
  (forall rest,
      APNewsCollector.visit_all env c (element :: rest) remaining_faults w =
      APNewsCollector.visit_all env c rest (remaining_faults - 1) (snd (snd after))).
Proof.
  intros news after.
  assert (E : after =
    (APNewsCollector.Next,
     ((remaining_faults - 1)%Z,
      APNewsCollector.note (APNewsCollector.Faults (remaining_faults - 1))
        (APNewsCollector.note (APNewsCollector.Extracted news)
           (APNewsCollector.write_file
              (snd (News.make env element (APNewsCollector.search_phrase c)))
              (snd (APNewsCollector.read_clock env w))))))).
  { unfold after, news. rewrite LoopFacts.visit_item by assumption. cbv zeta.
    now rewrite Hdate. }
  split; [now rewrite E|]. split; [now rewrite E|].
  split; [rewrite E; cbn; now rewrite LoopFacts.worksheet_write_file|].
  split; [rewrite E; cbn; now rewrite LoopFacts.log_write_file|].
  intros rest. cbn [APNewsCollector.visit_all]. fold after. now rewrite E.
Qed.

(** C2: an extracted item with a non-empty date whose month difference to
    the session start exceeds the cutoff is not persisted and costs the
    fault budget exactly 1; otherwise its row is appended to the worksheet
    and the budget is reset to 5. *)
Theorem dated_item_policy (env : Env) (br : Browser) (c : APNewsCollector.t)
    (element : WebElement) (remaining_faults : Z) (w : APNewsCollector.world br)
    (Hdeadline : (clock env (APNewsCollector.readings w) < APNewsCollector.timeout c)%Z)
    (Hbudget : remaining_faults <> 0%Z)
    (Hpresent : page_contains_element br element (APNewsCollector.page w) = true)
    (Hdate : News.date (fst (News.make env element (APNewsCollector.search_phrase c))) <> []) :
  let news := fst (News.make env element (APNewsCollector.search_phrase c)) in
  let months_diff :=
    time_difference_in_months env (News.date news) (APNewsCollector.now c) in
  let after := APNewsCollector.visit env c element remaining_faults w in
  fst after = APNewsCollector.Next /\
  ((months_diff > APNewsCollector.months c)%Z ->
   fst (snd after) = (remaining_faults - 1)%Z /\
   APNewsCollector.worksheet (snd (snd after)) = APNewsCollector.worksheet w /\
   APNewsCollector.log (snd (snd after)) =
     APNewsCollector.Faults (remaining_faults - 1) :: APNewsCollector.Extracted news
       :: APNewsCollector.log w) /\
  ((months_diff <= APNewsCollector.months c)%Z ->
   fst (snd after) = 5%Z /\
   APNewsCollector.worksheet (snd (snd after)) =
     APNewsCollector.worksheet w ++ [News.row news] /\
   APNewsCollector.log (snd (snd after)) =
     APNewsCollector.Faults 5 :: APNewsCollector.Persisted (News.row news)
       :: APNewsCollector.Extracted news :: APNewsCollector.log w).
Proof.
  intros news months_diff after. unfold after, months_diff, news.
  rewrite LoopFacts.visit_dated by assumption. cbv zeta.
  destruct (Z.gtb_spec
              (time_difference_in_months env
                 (News.date (fst (News.make env element (APNewsCollector.search_phrase c))))
                 (APNewsCollector.now c))
              (APNewsCollector.months c)) as [Hold|Hfresh].
  - split; [reflexivity|]. split; [|lia]. intros _. cbn.
    now rewrite LoopFacts.worksheet_write_file, LoopFacts.log_write_file.
  - split; [reflexivity|]. split; [lia|]. intros _. cbn.
    now rewrite LoopFacts.worksheet_write_file, LoopFacts.log_write_file.
Qed.

(** C5: for months >= 0 the stored cutoff is 0 for 0 and months - 1
    otherwise, so 0 and 1 give the same cutoff, and an extracted item with
    a date is persisted iff its month difference to the session start does
    not exceed the stored cutoff. *)
Theorem months_cutoff_normalized (env : Env) (search_phrase categories : str)
    (months : Z) (sort_by : str) (timeout : Z) (Hmonths : (0 <= months)%Z) :
  let c := APNewsCollector.init env search_phrase categories months sort_by timeout in
  APNewsCollector.months c = (if (months =? 0)%Z then 0 else months - 1)%Z /\
  (0 <= APNewsCollector.months c)%Z /\
  APNewsCollector.months
    (APNewsCollector.init env search_phrase categories 0 sort_by timeout) =
  APNewsCollector.months
    (APNewsCollector.init env search_phrase categories 1 sort_by timeout) /\
  (forall (br : Browser) (element : WebElement) (remaining_faults : Z)
          (w : APNewsCollector.world br),
      (clock env (APNewsCollector.readings w) < APNewsCollector.timeout c)%Z ->
      remaining_faults <> 0%Z ->
      page_contains_element br element (APNewsCollector.page w) = true ->
      let news := fst (News.make env element (APNewsCollector.search_phrase c)) in
      News.date news <> [] ->
      (APNewsCollector.worksheet
         (snd (snd (APNewsCollector.visit env c element remaining_faults w))) =
       APNewsCollector.worksheet w ++ [News.row news] <->
       (time_difference_in_months env (News.date news) (APNewsCollector.now c)
        <= APNewsCollector.months c)%Z)).
Proof.
  intros c. split; [|split; [|split]].
  - unfold c. cbn. unfold APNewsCollector.normalize_months.
    now destruct (Z.eqb_spec months 0) as [->|].
  - unfold c. cbn. unfold APNewsCollector.normalize_months.
    destruct (Z.eqb_spec months 0); lia.
  - reflexivity.
  - clearbody c. intros br element rf w Hdeadline Hrf Hpresent news Hdate. unfold news.
    rewrite LoopFacts.visit_dated by assumption. cbv zeta. clear news Hdate.
    generalize (News.make env element (APNewsCollector.search_phrase c)).
    intros [news file]. cbn [fst snd].
    destruct (Z.gtb_spec
                (time_difference_in_months env (News.date news) (APNewsCollector.now c))
                (APNewsCollector.months c)) as [Hold|Hfresh]; cbn;
      rewrite LoopFacts.worksheet_write_file.
    + split; [|lia]. intros Happ. apply (f_equal (@length _)) in Happ.
      rewrite length_app in Happ. cbn in Happ. lia.
    + split; [intros _; exact Hfresh | reflexivity].
Qed.

Lemma undated_item_witness :
  let env := Double.env 1716200000 in
  let c := APNewsCollector.init env (u "economy") [] 1 (u "Newest") 170 in
  let br := Double.browser [([Double.undated "Economy"], "1 of 1"%string)] [] in
  fst (snd (APNewsCollector.visit env c (Double.undated "Economy") 5
              (APNewsCollector.start br))) = 4%Z.
Proof.
  intros env c br.
  refine (proj1 (proj2 (undated_item_is_skipped env br c (Double.undated "Economy") 5
                          (APNewsCollector.start br) _ _ _ _))).
  - vm_compute. reflexivity.
  - intros H. discriminate H.
  - reflexivity.
  - reflexivity.
Defined.

Lemma dated_item_witness :
  let env := Double.env 1716200000 in
  let c := APNewsCollector.init env (u "economy") [] 1 (u "Newest") 170 in
  let item := Double.article "Economy grows" "The economy adds $11.1 billion"
                             1716199995000 in
  let br := Double.browser [([item], "1 of 1"%string)] [] in
  APNewsCollector.worksheet
    (snd (snd (APNewsCollector.visit env c item 3 (APNewsCollector.start br)))) =
  [News.row (fst (News.make env item (u "economy")))].
Proof.
  intros env c item br.
  refine (proj1 (proj2 (proj2 (proj2 (dated_item_policy env br c item 3
                                        (APNewsCollector.start br) _ _ _ _)) _))).
  - vm_compute. reflexivity.
  - intros H. discriminate H.
  - reflexivity.
  - intros H. vm_compute in H. discriminate H.
  - vm_compute. intros H. discriminate H.
Defined.

Lemma months_cutoff_witness :
  APNewsCollector.months
    (APNewsCollector.init (Double.env 0) (u "economy") [] 3 (u "Newest") 170) = 2%Z.
Proof.
  refine (proj1 (months_cutoff_normalized (Double.env 0) (u "economy") [] 3
                   (u "Newest") 170 _)).
  intros H. discriminate H.
Defined.

(** C1, as the code runs: on a page whose counts read "2 of 10" every
    element is processed, yet the loop returns without a click on the
    next-page control, because "2" < "10" is false for strings although
    2 < 10; with "2 of 9" the same run goes on to the next page. *)
Theorem page_counts_compared_as_text :
  let env := Double.env 1716200000 in
  let c := APNewsCollector.init env (u "economy") [] 1 (u "Newest") 170 in
  let item := Double.article "Economy grows" "The economy adds $11.1 billion"
                             1716199995000 in
  let run := fun counts : string =>
    APNewsCollector.get_news env 10 c
      (APNewsCollector.start
         (Double.browser [([item], counts); ([item], "3 of 10"%string)] [])) in
  PyStr.split (u "2 of 10") (u " of ") = PyStr.SplitOk [u "2"; u "10"] /\
  (Double.of_decimal (u "2") < Double.of_decimal (u "10"))%Z /\
  PyStr.lt (u "2") (u "10") = false /\
  fst (run "2 of 10"%string) = APNewsCollector.Done /\
  fst (snd (run "2 of 10"%string)) = 5%Z /\
  APNewsCollector.page (snd (snd (run "2 of 10"%string))) = 0%nat /\
  (forall l, In (APNewsCollector.Clicked l)
                (APNewsCollector.log (snd (snd (run "2 of 10"%string)))) -> False) /\
  APNewsCollector.page (snd (snd (run "2 of 9"%string))) = 1%nat.
Proof.
  intros env c item run.
  split; [reflexivity|]. split; [reflexivity|]. split; [reflexivity|].
  split; [vm_compute; reflexivity|]. split; [vm_compute; reflexivity|].
  split; [vm_compute; reflexivity|]. split; [|vm_compute; reflexivity].
  intros l H. vm_compute in H.
  repeat (destruct H as [H|H]; [discriminate H|]). exact H.
Qed.

(* ===================================================================== *)
(** * Further properties *)
(* ===================================================================== *)

(** ** Splitting, joining and ordering strings *)

Module PyTextFacts.
Import PyStr PyText.

Lemma split_scan_nonempty sep s : forall skip cur, split_scan sep s skip cur <> [].
Proof.
  induction s as [|c s IH]; intros skip cur; simpl; [discriminate|].
  destruct skip; [|apply IH]. destruct (startswith sep (c :: s)); [discriminate | apply IH].
Qed.

Lemma join_cons sep piece rest :
  rest <> [] -> join sep (piece :: rest) = piece ++ sep ++ join sep rest.
Proof. destruct rest; [congruence | reflexivity]. Qed.

Lemma startswith_split sub s :
  startswith sub s = true -> s = sub ++ skipn (length sub) s.
Proof.
  revert s. induction sub as [|a sub IH]; intros s; simpl; [reflexivity|].
  destruct s as [|b s]; [intros H; discriminate H|].
  intros H. apply andb_true_iff in H as [Hab Hs]. apply N.eqb_eq in Hab. subst b.
  simpl. f_equal. now apply IH.
Qed.

(** Joining the pieces gives back what was scanned. *)
Lemma join_split_scan sep s : sep <> [] -> forall skip cur,
  join sep (split_scan sep s skip cur) = rev cur ++ skipn skip s.
Proof.
  intros Hsep. induction s as [|c s IH]; intros skip cur.
  - simpl. now rewrite skipn_nil, app_nil_r.
  - cbn [split_scan]. destruct skip as [|k]; [|apply IH].
    destruct (startswith sep (c :: s)) eqn:Hst.
    + rewrite join_cons by apply split_scan_nonempty. rewrite IH. cbn [rev app skipn].
      f_equal. apply startswith_split in Hst. destruct sep as [|a sep]; [congruence|].
      cbn [length] in *. rewrite Nat.sub_succ, Nat.sub_0_r. cbn [skipn] in Hst.
      now rewrite <- Hst.
    + rewrite IH. cbn [rev skipn]. now rewrite <- app_assoc.
Qed.

Lemma length_split_scan sep s : forall skip cur,
  length (split_scan sep s skip cur) = S (count_scan sep s skip).
Proof.
  induction s as [|c s IH]; intros skip cur; [reflexivity|].
  cbn [split_scan count_scan]. destruct skip as [|k]; [|apply IH].
  destruct (startswith sep (c :: s)); [cbn [length]; now rewrite IH | apply IH].
Qed.

End PyTextFacts.

(** X1: for a non-empty separator, splitting never fails, joining the
    pieces with the separator gives the string back, and there is one more
    piece than [count] finds separators (so at least one piece). *)
Theorem split_join_round_trip (s sep : str) (Hsep : sep <> []) :
  exists pieces,
    PyStr.split s sep = PyStr.SplitOk pieces /\
    PyText.join sep pieces = s /\
    Z.of_nat (length pieces) = (PyStr.count s sep + 1)%Z /\
    pieces <> [].
Proof.
  destruct sep as [|a sep]; [congruence|].
  exists (PyStr.split_scan (a :: sep) s 0 []). split; [reflexivity|]. split; [|split].
  - now rewrite PyTextFacts.join_split_scan.
  - rewrite PyTextFacts.length_split_scan. unfold PyStr.count. lia.
  - apply PyTextFacts.split_scan_nonempty.
Qed.

Lemma split_join_witness :
  exists pieces,
    PyStr.split (u "Sports,,Business") (u ",") = PyStr.SplitOk pieces /\
    PyText.join (u ",") pieces = u "Sports,,Business" /\
    Z.of_nat (length pieces) = (PyStr.count (u "Sports,,Business") (u ",") + 1)%Z /\
    pieces <> [].
Proof.
  apply (split_join_round_trip (u "Sports,,Business") (u ",")).
  intros H. discriminate H.
Defined.

Module PageCountFacts.
Import PyStr PyText.

Lemma startswith_app sep t : startswith sep (sep ++ t) = true.
Proof. induction sep as [|a sep IH]; simpl; [reflexivity|]. now rewrite N.eqb_refl. Qed.

(** Characters that cannot start the separator go to the current piece. *)
Lemma split_scan_plain a sep' c : forall rest cur,
  ~ In a c ->
  split_scan (a :: sep') (c ++ rest) 0 cur = split_scan (a :: sep') rest 0 (rev c ++ cur).
Proof.
  induction c as [|x c IH]; intros rest cur Hno; [reflexivity|].
  cbn [app split_scan startswith].
  destruct (N.eqb_spec a x) as [->|Hne]; [exfalso; apply Hno; now left|].
  cbn [andb]. rewrite IH by (intros H; apply Hno; now right).
  cbn [rev]. now rewrite <- app_assoc.
Qed.

Lemma split_scan_skip sep x : forall t cur,
  split_scan sep (x ++ t) (length x) cur = split_scan sep t 0 cur.
Proof. induction x as [|c x IH]; intros t cur; [reflexivity | apply IH]. Qed.

Lemma split_two a sep' current total :
  ~ In a current -> ~ In a total ->
  split_scan (a :: sep') (current ++ (a :: sep') ++ total) 0 [] = [current; total].
Proof.
  intros Hc Ht. rewrite split_scan_plain by exact Hc. rewrite app_nil_r.
  cbn [app split_scan]. change (a :: sep' ++ total) with ((a :: sep') ++ total).
  rewrite startswith_app. rewrite rev_involutive. f_equal.
  cbn [length]. rewrite Nat.sub_succ, Nat.sub_0_r. rewrite split_scan_skip.
  rewrite <- (app_nil_r total) at 1. rewrite split_scan_plain by exact Ht.
  cbn. now rewrite app_nil_r, rev_involutive.
Qed.

Lemma decimal_fold s : forall acc,
  fold_left (fun acc c => (10 * acc + (Z.of_N c - 48))%Z) s acc =
  (acc * 10 ^ Z.of_nat (length s) + decimal_value s)%Z.
Proof.
  unfold decimal_value. induction s as [|c s IH]; intros acc; cbn [fold_left length].
  - rewrite Z.pow_0_r. lia.
  - rewrite IH, (IH (10 * 0 + (Z.of_N c - 48))%Z).
    rewrite Nat2Z.inj_succ, Z.pow_succ_r by lia. lia.
Qed.

Lemma decimal_value_cons c s :
  decimal_value (c :: s) =
  ((Z.of_N c - 48) * 10 ^ Z.of_nat (length s) + decimal_value s)%Z.
Proof. unfold decimal_value at 1. cbn [fold_left]. rewrite decimal_fold. lia. Qed.

Lemma ascii_digit_range c : ascii_digit c = true -> (0 <= Z.of_N c - 48 <= 9)%Z.
Proof.
  unfold ascii_digit. intros H. apply andb_true_iff in H as [H1 H2].
  apply N.leb_le in H1, H2. lia.
Qed.

Lemma decimal_value_bound s :
  all_digits s = true -> (0 <= decimal_value s < 10 ^ Z.of_nat (length s))%Z.
Proof.
  induction s as [|c s IH]; intros H.
  - cbn. lia.
  - cbn [all_digits forallb] in H. apply andb_true_iff in H as [Hc Hs].
    specialize (IH Hs). apply ascii_digit_range in Hc.
    rewrite decimal_value_cons. cbn [length].
    rewrite Nat2Z.inj_succ, Z.pow_succ_r by lia. nia.
Qed.

Lemma lt_digits a : forall b,
  length a = length b -> all_digits a = true -> all_digits b = true ->
  (lt a b = true <-> (decimal_value a < decimal_value b)%Z).
Proof.
  induction a as [|x a IH]; intros [|y b] Hlen Ha Hb; try discriminate Hlen.
  - cbn. split; [intros H; discriminate H | lia].
  - injection Hlen as Hlen.
    cbn [all_digits forallb] in Ha, Hb.
    apply andb_true_iff in Ha as [Hx Ha]. apply andb_true_iff in Hb as [Hy Hb].
    pose proof (decimal_value_bound a Ha) as Ba.
    pose proof (decimal_value_bound b Hb) as Bb.
    specialize (IH b Hlen Ha Hb). change (all_digits a = true) in Ha.
    rewrite !decimal_value_cons. rewrite <- Hlen in *.
    set (P := (10 ^ Z.of_nat (length a))%Z) in *.
    cbn [lt]. destruct (N.ltb_spec x y) as [Hxy|Hxy].
    + split; [intros _|reflexivity]. nia.
    + destruct (N.eqb_spec x y) as [->|Hne].
      * rewrite IH. lia.
      * split; [intros H; discriminate H|]. assert (y < x)%N by lia. nia.
Qed.

End PageCountFacts.

(** X2: when a page was read to its last element and the page-counts text
    is "current of total" with no space inside either part, the text splits
    into exactly these two parts, nothing is raised, and the loop clicks the
    next-page control iff current < total as strings, and returns
    otherwise. *)
Theorem page_counts_parse (env : Env) (br : Browser) (f : nat)
    (c : APNewsCollector.t) (rf rf1 : Z) (w w1 : APNewsCollector.world br)
    (current total : str)
    (Hbudget : (0 < rf)%Z)
    (Hpage : APNewsCollector.visit_all env c
               (get_webelements br APNewsCollector.RESULT_ITEMS (APNewsCollector.page w))
               rf (APNewsCollector.note
                     (APNewsCollector.Listed APNewsCollector.RESULT_ITEMS) w) =
             (APNewsCollector.Next, (rf1, w1)))
    (Htext : get_webelement_text br APNewsCollector.PAGE_COUNTS (APNewsCollector.page w1) =
             current ++ u " of " ++ total)
    (Hcurrent : ~ In 32%N current) (Htotal : ~ In 32%N total) :
  PyStr.split (current ++ u " of " ++ total) (u " of ") =
    PyStr.SplitOk [current; total] /\
  APNewsCollector.get_news_loop env (S f) c rf w =
  if PyStr.lt current total
  then APNewsCollector.get_news_loop env f c rf1
         (APNewsCollector.secure_click_element (Css APNewsCollector.NEXT_PAGE) w1)
  else (APNewsCollector.Done, (rf1, w1)).
Proof.
  assert (Hsplit : PyStr.split (current ++ u " of " ++ total) (u " of ") =
                   PyStr.SplitOk [current; total]).
  { change (u " of ") with (32%N :: [111; 102; 32]%N). unfold PyStr.split.
    f_equal. now apply PageCountFacts.split_two. }
  split; [exact Hsplit|].
  apply LoopFacts.get_news_loop_page; [exact Hbudget | exact Hpage |].
  now rewrite Htext.
Qed.

(** X3: on two strings of ASCII digits of the same length, the string
    order the loop uses is the order of the numbers they write. *)
Theorem string_order_is_numeric_on_equal_lengths (current total : str)
    (Hlength : length current = length total)
    (Hcurrent : PyText.all_digits current = true)
    (Htotal : PyText.all_digits total = true) :
  PyStr.lt current total = true <->
  (PyText.decimal_value current < PyText.decimal_value total)%Z.
Proof. now apply PageCountFacts.lt_digits. Qed.

Lemma string_order_witness :
  PyStr.lt (u "17") (u "42") = true <->
  (PyText.decimal_value (u "17") < PyText.decimal_value (u "42"))%Z.
Proof.
  apply (string_order_is_numeric_on_equal_lengths (u "17") (u "42"));
    reflexivity.
Defined.

Lemma page_counts_parse_witness :
  PyStr.split (u "1" ++ u " of " ++ u "2") (u " of ") =
    PyStr.SplitOk [u "1"; u "2"].
Proof.
  pose (env := Double.env 1716200000).
  pose (c := APNewsCollector.init env (u "economy") [] 1 (u "Newest") 170).
  pose (item := Double.article "Economy grows" "" 1716199995000).
  pose (br := Double.browser [([item], "1 of 2"%string); ([item], "2 of 2"%string)] []).
  pose (r := APNewsCollector.visit_all env c
               (get_webelements br APNewsCollector.RESULT_ITEMS
                  (APNewsCollector.page (APNewsCollector.start br)))
               5 (APNewsCollector.note
                    (APNewsCollector.Listed APNewsCollector.RESULT_ITEMS)
                    (APNewsCollector.start br))).
  refine (proj1 (page_counts_parse env br 3 c 5 (fst (snd r))
                   (APNewsCollector.start br) (snd (snd r)) (u "1") (u "2")
                   _ _ _ _ _)).
  - reflexivity.
  - vm_compute. reflexivity.
  - vm_compute. reflexivity.
  - vm_compute. intros [H|[]]. discriminate H.
  - vm_compute. intros [H|[]]. discriminate H.
Defined.

(** ** The field readers *)

Module ReaderFacts.
Import News.


(** Only the answers to the queries a reader can make matter. *)
Lemma read_field_ext (A : Type) (q1 q2 : nat -> lookup A) (value : A -> str) :
  forall attempts n,
  (forall i, i < attempts -> q1 (n + i) = q2 (n + i)) ->
  read_field attempts q1 n value = read_field attempts q2 n value.
Proof.
  induction attempts as [|a IH]; intros n H; [reflexivity|]. cbn [read_field].
  pose proof (H 0 ltac:(lia)) as H0. rewrite Nat.add_0_r in H0. rewrite H0.
  assert (Hrest : read_field a q1 (S n) value = read_field a q2 (S n) value).
  { apply IH. intros i Hi. replace (S n + i) with (n + S i) by lia. apply H. lia. }
  now destruct (q2 n).
Qed.

Lemma get_picture_loop_ext (e1 e2 : WebElement) :
  forall attempts n,
  (forall i, i < attempts -> img_screenshot e1 (n + i) = img_screenshot e2 (n + i)) ->
  get_picture_loop attempts e1 n = get_picture_loop attempts e2 n.
Proof.
  induction attempts as [|a IH]; intros n H; [reflexivity|]. cbn [get_picture_loop].
  pose proof (H 0 ltac:(lia)) as H0. rewrite Nat.add_0_r in H0. rewrite H0.
  assert (Hrest : get_picture_loop a e1 (S n) = get_picture_loop a e2 (S n)).
  { apply IH. intros i Hi. replace (S n + i) with (n + S i) by lia. apply H. lia. }
  now destruct (img_screenshot e2 n).
Qed.

End ReaderFacts.



(** X5: a [News] object depends on the first five answers of each of the
    four DOM queries only: two elements that agree on them give the same
    object and write the same picture file. *)
Theorem extraction_reads_five_answers (env : Env) (e1 e2 : WebElement)
    (search_phrase : str)
    (Hsame : forall i, i < News.ATTEMPTS ->
       title_text e1 i = title_text e2 i /\
       data_timestamp e1 i = data_timestamp e2 i /\
       description_text e1 i = description_text e2 i /\
       img_screenshot e1 i = img_screenshot e2 i) :
  News.make env e1 search_phrase = News.make env e2 search_phrase.
Proof.
  unfold News.make, News.get_title, News.get_date, News.get_description, News.get_picture.
  rewrite (ReaderFacts.read_field_ext _ (title_text e1) (title_text e2))
    by (intros i Hi; apply Hsame, Hi).
  rewrite (ReaderFacts.read_field_ext _ (data_timestamp e1) (data_timestamp e2))
    by (intros i Hi; apply Hsame, Hi).
  rewrite (ReaderFacts.read_field_ext _ (description_text e1) (description_text e2))
    by (intros i Hi; apply Hsame, Hi).
  rewrite (ReaderFacts.get_picture_loop_ext e1 e2)
    by (intros i Hi; apply Hsame, Hi).
  reflexivity.
Qed.

Lemma extraction_reads_five_witness :
  News.make (Double.env 0) (Double.flaky_image 7 NoSuchElementException) (u "economy") =
  News.make (Double.env 0) (Double.flaky_image 5 (Found [])) (u "economy").
Proof.
  apply (extraction_reads_five_answers (Double.env 0)).
  intros i Hi. repeat split.
  unfold News.ATTEMPTS in Hi.
  assert (Hcases : i = 0 \/ i = 1 \/ i = 2 \/ i = 3 \/ i = 4) by lia.
  destruct Hcases as [-> | [-> | [-> | [-> | ->]]]]; reflexivity.
Defined.

Module PictureFacts.
Import Sha1.
Local Open Scope N_scope.

Lemma length_digest data : length (digest data) = 20%nat.
Proof.
  unfold digest.
  destruct (fold_left compress _ init) as [[[[h0 h1] h2] h3] h4]. reflexivity.
Qed.

Lemma length_hex bs : length (hex bs) = (2 * length bs)%nat.
Proof.
  induction bs as [|b bs IH]; [reflexivity|].
  change (hex (b :: bs)) with (hex_byte b ++ hex bs).
  rewrite length_app, IH. cbn. lia.
Qed.

Lemma hex_digit_is_hex n : n < 16 -> PyText.hex_char (hex_digit n) = true.
Proof.
  unfold hex_digit, PyText.hex_char. intros H.
  destruct (N.ltb_spec n 10).
  - apply orb_true_iff. left. apply andb_true_iff. split; apply N.leb_le; lia.
  - apply orb_true_iff. right. apply andb_true_iff. split; apply N.leb_le; lia.
Qed.

Lemma hex_is_hex bs : forallb PyText.hex_char (hex bs) = true.
Proof.
  induction bs as [|b bs IH]; [reflexivity|].
  change (hex (b :: bs)) with (hex_byte b ++ hex bs).
  pose proof (Byte.to_N_bounded b) as Hb.
  rewrite forallb_app, IH, andb_true_r. unfold hex_byte. cbn [forallb].
  rewrite !hex_digit_is_hex; [reflexivity | apply N.mod_lt; lia |
                              apply N.Div0.div_lt_upper_bound; lia].
Qed.

End PictureFacts.

Module PictureLoopFacts.
Import News.

Lemma picture_name_not_empty b : picture_name b <> [].
Proof.
  unfold picture_name. intros H. apply (f_equal (@length _)) in H.
  rewrite length_app in H. cbn in H. lia.
Qed.

Lemma get_picture_loop_file element : forall attempts n,
  let r := get_picture_loop attempts element n in
  (pic_name r = [] /\ pic_file r = None) \/
  (exists b, pic_name r = picture_name b /\
             pic_file r = Some (output_path (picture_name b), b)).
Proof.
  induction attempts as [|a IH]; intros n; cbn [get_picture_loop]; [now left|].
  destruct (img_screenshot element n) as [b| |]; cbn; [right; eauto | now left | apply IH].
Qed.

End PictureLoopFacts.

(** X6: a SHA-1 digest has 20 bytes, so a picture name has 44 characters,
    40 lower-case hexadecimal digits and ".png", with no "/" in it; and the
    picture field of an element is empty exactly when no file was
    written. *)
Theorem picture_name_shape (pic_bytes : list byte) (element : WebElement) :
  length (Sha1.digest pic_bytes) = 20 /\
  length (News.picture_name pic_bytes) = 44 /\
  forallb PyText.hex_char (Sha1.hexdigest pic_bytes) = true /\
  existsb (N.eqb 47) (News.picture_name pic_bytes) = false /\
  (News.pic_name (News.get_picture element) = [] <->
   News.pic_file (News.get_picture element) = None).
Proof.
  pose proof (PictureFacts.length_digest pic_bytes) as Hd.
  pose proof (PictureFacts.hex_is_hex (Sha1.digest pic_bytes)) as Hh.
  split; [exact Hd|]. split; [|split; [exact Hh|split]].
  - unfold News.picture_name, Sha1.hexdigest.
    rewrite length_app, PictureFacts.length_hex, Hd. reflexivity.
  - unfold News.picture_name, Sha1.hexdigest. rewrite existsb_app.
    apply orb_false_iff. split; [|reflexivity].
    apply not_true_iff_false. intros H. apply existsb_exists in H as (c & Hin & Hc).
    apply N.eqb_eq in Hc. subst c.
    rewrite forallb_forall in Hh. specialize (Hh _ Hin). discriminate Hh.
  - unfold News.get_picture.
    destruct (PictureLoopFacts.get_picture_loop_file element News.ATTEMPTS 0)
      as [[Hn Hf]|(b & Hn & Hf)]; rewrite Hn, Hf.
    + split; reflexivity.
    + split; [intros H; now destruct (PictureLoopFacts.picture_name_not_empty b)
             | intros H; discriminate H].
Qed.

(** ** What a run leaves behind *)

Module SheetFacts.
Import APNewsCollector.
Local Open Scope Z_scope.

Section Sheet.
Variable env : Env.
Variable br : Browser.

Local Abbreviation adds_rows := (@Probe.adds_rows env br).

Lemma adds_rows_refl c w w' : worksheet w' = worksheet w -> adds_rows c w w'.
Proof. intros H. exists []. split; [now rewrite H, app_nil_r | constructor]. Qed.

Lemma adds_rows_trans c w1 w2 w3 :
  adds_rows c w1 w2 -> adds_rows c w2 w3 -> adds_rows c w1 w3.
Proof.
  intros (i1 & E1 & Q1) (i2 & E2 & Q2). exists (i1 ++ i2). split.
  - now rewrite E2, E1, map_app, app_assoc.
  - now apply Forall_app.
Qed.

Lemma visit_rows c element rf w fl rf' w' :
  visit env c element rf w = (fl, (rf', w')) -> adds_rows c w w'.
Proof.
  rewrite LoopFacts.visit_eq. cbv zeta.
  destruct (_ || _); [intros [= <- <- <-]; now apply adds_rows_refl|].
  destruct (negb (page_contains_element _ _ _));
    [intros [= <- <- <-]; now apply adds_rows_refl|].
  set (news := fst (News.make env element (search_phrase c))).
  destruct (PyStr.truthy (News.date news)) eqn:Hdate; cbn [negb].
  2:{ intros [= <- <- <-]. apply adds_rows_refl. cbn.
      now rewrite LoopFacts.worksheet_write_file. }
  destruct (Z.gtb_spec (time_difference_in_months env (News.date news) (now c))
                       (months c)) as [Hold|Hfresh].
  { intros [= <- <- <-]. apply adds_rows_refl. cbn.
    now rewrite LoopFacts.worksheet_write_file. }
  intros [= <- <- <-]. exists [news]. split.
  - cbn. now rewrite LoopFacts.worksheet_write_file.
  - constructor; [|constructor]. split; [|exact Hfresh].
    intros E. rewrite E in Hdate. discriminate Hdate.
Qed.

Lemma visit_all_rows c elements : forall rf w fl rf' w',
  visit_all env c elements rf w = (fl, (rf', w')) -> adds_rows c w w'.
Proof.
  induction elements as [|element rest IH]; intros rf w fl rf' w'; cbn [visit_all].
  - intros [= <- <- <-]. now apply adds_rows_refl.
  - destruct (visit env c element rf w) as [fl1 [rf1 w1]] eqn:E.
    apply visit_rows in E. destruct fl1.
    + intros H. apply IH in H. eapply adds_rows_trans; eauto.
    + intros [= <- <- <-]. exact E.
    + intros [= <- <- <-]. exact E.
Qed.

Lemma get_news_loop_rows c : forall fuel rf w out rf' w',
  get_news_loop env fuel c rf w = (out, (rf', w')) -> adds_rows c w w'.
Proof.
  induction fuel as [|f IH]; intros rf w out rf' w'; cbn [get_news_loop].
  - intros [= <- <- <-]. now apply adds_rows_refl.
  - destruct (rf >? 0); [|intros [= <- <- <-]; now apply adds_rows_refl].
    destruct (visit_all env c _ rf _) as [fl [rf1 w1]] eqn:E.
    apply visit_all_rows in E.
    assert (E' : adds_rows c w w1) by exact E.
    destruct fl; [|intros [= <- <- <-]; exact E'..].
    destruct (PyStr.split _ _) as [[|current [|total [|? ?]]]|];
      try (intros [= <- <- <-]; exact E').
    destruct (PyStr.lt current total); [|intros [= <- <- <-]; exact E'].
    intros H. apply IH in H. eapply adds_rows_trans; [exact E'|exact H].
Qed.

Lemma filter_loop_worksheet : forall fuel (categories : gset str) (w w' : world br),
  filter_loop env fuel categories w = Some w' -> worksheet w' = worksheet w.
Proof.
  induction fuel as [|f IH]; intros categories w w'; cbn [filter_loop].
  - destruct (size categories =? 0)%nat; [intros [= <-]; reflexivity | intros H; discriminate H].
  - destruct (size categories =? 0)%nat; [intros [= <-]; reflexivity|].
    destruct (first_wanted _ _ _) as [[element element_text]|].
    + intros H. apply IH in H. exact H.
    + intros [= <-]. reflexivity.
Qed.

End Sheet.
End SheetFacts.

(** X7: [collect_news] always gets through the category filter, and
    whatever the run does and however it ends (for any fuel), the worksheet
    it leaves is the header row followed by rows of items that have a date
    within the cutoff; every row has six cells. *)
Theorem worksheet_is_header_then_qualifying_rows (env : Env) (br : Browser)
    (fuel : nat) (c : APNewsCollector.t) :
  exists out remaining_faults w' items,
    APNewsCollector.collect_news env br fuel c = Some (out, (remaining_faults, w')) /\
    APNewsCollector.worksheet w' = APNewsCollector.header :: map News.row items /\
    Forall (Probe.qualifies env c) items /\
    Forall (fun r => length r = 6) (APNewsCollector.worksheet w').
Proof.
  unfold APNewsCollector.collect_news.
  destruct (FilterFacts.filter_news_total env br c
              (APNewsCollector.search_news c
                 (APNewsCollector.append_row APNewsCollector.header
                    (APNewsCollector.start br)))) as [w1 Hw1].
  rewrite Hw1.
  assert (Hsheet : APNewsCollector.worksheet w1 = [APNewsCollector.header]).
  { unfold APNewsCollector.filter_news in Hw1.
    apply SheetFacts.filter_loop_worksheet in Hw1. rewrite Hw1.
    now destruct (PyStr.truthy (APNewsCollector.sort_by c)). }
  destruct (APNewsCollector.get_news env fuel c w1) as [out [rf w']] eqn:E.
  unfold APNewsCollector.get_news in E.
  apply SheetFacts.get_news_loop_rows in E. destruct E as (items & Hrows & Hq).
  cbn [APNewsCollector.worksheet APNewsCollector.note] in Hrows.
  rewrite Hsheet in Hrows.
  exists out, rf, w', items. split; [reflexivity|]. split; [exact Hrows|].
  split; [exact Hq|]. rewrite Hrows. constructor; [reflexivity|].
  apply Forall_forall. intros r Hr. apply list_elem_of_In in Hr.
  apply in_map_iff in Hr as (n & <- & _). reflexivity.
Qed.

Module BudgetFacts.
Import APNewsCollector.
Local Open Scope Z_scope.

Section Budget.
Variable env : Env.
Variable br : Browser.

(** The turn for an item that does not qualify. *)
Lemma visit_miss (c : t) (element : WebElement) (rf : Z) (w : world br) :
  clock env (readings w) < timeout c -> rf <> 0 ->
  page_contains_element br element (page w) = true ->
  ~ Probe.qualifies env c (fst (News.make env element (search_phrase c))) ->
  exists w',
    visit env c element rf w = (Next, (rf - 1, w')) /\
    worksheet w' = worksheet w /\ page w' = page w /\
    readings w' = S (readings w) /\
    Probe.extracted (log w') =
      fst (News.make env element (search_phrase c)) :: Probe.extracted (log w).
Proof.
  intros Hdeadline Hrf Hpresent Hmiss.
  rewrite LoopFacts.visit_item by assumption. cbv zeta.
  set (news := fst (News.make env element (search_phrase c))) in *.
  set (file := snd (News.make env element (search_phrase c))).
  clearbody news file.
  assert (Hfields : forall w2 : world br,
    w2 = note (Faults (rf - 1))
           (note (Extracted news) (write_file file (snd (read_clock env w)))) ->
    worksheet w2 = worksheet w /\ page w2 = page w /\
    readings w2 = S (readings w) /\
    Probe.extracted (log w2) = news :: Probe.extracted (log w)).
  { intros w2 ->. cbn. rewrite LoopFacts.worksheet_write_file, LoopFacts.log_write_file.
    destruct file; cbn; repeat split. }
  destruct (PyStr.truthy (News.date news)) eqn:Hdate; cbn [negb]; [|eauto].
  destruct (Z.gtb_spec (time_difference_in_months env (News.date news) (now c))
                       (months c)) as [Hold|Hfresh]; [eauto|].
  exfalso. apply Hmiss. split; [|exact Hfresh].
  intros E. rewrite E in Hdate. discriminate Hdate.
Qed.

Lemma visit_late (c : t) (element : WebElement) (rf : Z) (w : world br) :
  timeout c <= clock env (readings w) \/ rf = 0 ->
  visit env c element rf w = (Return, (rf, snd (read_clock env w))).
Proof.
  intros H. rewrite LoopFacts.visit_eq. cbv zeta.
  replace ((timeout c <=? clock env (readings w)) || (rf =? 0)) with true; [reflexivity|].
  symmetry. apply orb_true_iff.
  destruct H as [H|H]; [left; now apply Z.leb_le | right; now apply Z.eqb_eq].
Qed.

Lemma misses_exhaust (c : t) (bad : list WebElement) : forall (rf : Z) (w : world br)
    (next : WebElement) (rest : list WebElement),
  Z.of_nat (length bad) = rf ->
  (forall i, (i < length bad)%nat -> clock env (readings w + i) < timeout c) ->
  Forall (fun el => page_contains_element br el (page w) = true) bad ->
  Forall (fun el => ~ Probe.qualifies env c (fst (News.make env el (search_phrase c)))) bad ->
  exists w',
    visit_all env c (bad ++ next :: rest) rf w = (Return, (0, w')) /\
    worksheet w' = worksheet w /\
    readings w' = (readings w + length bad + 1)%nat /\
    Probe.extracted (log w') =
      rev (map (fun el => fst (News.make env el (search_phrase c))) bad)
      ++ Probe.extracted (log w).
Proof.
  induction bad as [|el bad IH]; intros rf w next rest Hcount Hclock Hpresent Hmiss.
  - cbn in Hcount. subst rf. cbn [app visit_all].
    rewrite visit_late by now right.
    eexists. split; [reflexivity|]. cbn. repeat split; lia.
  - cbn [length] in Hcount.
    apply Forall_cons_iff in Hpresent as [Hp Hpresent].
    apply Forall_cons_iff in Hmiss as [Hm Hmiss].
    destruct (visit_miss c el rf w) as (w1 & E & Hws & Hpage & Hrd & Hex); auto.
    { specialize (Hclock 0%nat ltac:(cbn; lia)). now rewrite Nat.add_0_r in Hclock. }
    { lia. }
    cbn [app visit_all]. rewrite E.
    destruct (IH (rf - 1) w1 next rest) as (w' & E' & Hws' & Hrd' & Hex').
    + lia.
    + intros i Hi. rewrite Hrd. replace (S (readings w) + i)%nat with (readings w + S i)%nat by lia.
      apply Hclock. cbn. lia.
    + now rewrite Hpage.
    + exact Hmiss.
    + exists w'. split; [exact E'|]. split; [congruence|]. split.
      * rewrite Hrd', Hrd. cbn [length]. lia.
      * rewrite Hex', Hex. cbn [map rev]. now rewrite <- app_assoc.
Qed.

End Budget.
End BudgetFacts.

(** X8: when the deadline has passed as the first element of a page comes
    up, [__get_news] returns at once: one clock reading, nothing extracted,
    written or clicked, and the page counts are not read. *)
Theorem deadline_stops_mid_page (env : Env) (br : Browser) (f : nat)
    (c : APNewsCollector.t) (remaining_faults : Z) (w : APNewsCollector.world br)
    (element : WebElement) (rest : list WebElement)
    (Hbudget : (0 < remaining_faults)%Z)
    (Hitems : get_webelements br APNewsCollector.RESULT_ITEMS (APNewsCollector.page w) =
              element :: rest)
    (Hlate : (APNewsCollector.timeout c <= clock env (APNewsCollector.readings w))%Z) :
  exists w',
    APNewsCollector.get_news_loop env (S f) c remaining_faults w =
      (APNewsCollector.Done, (remaining_faults, w')) /\
    APNewsCollector.worksheet w' = APNewsCollector.worksheet w /\
    APNewsCollector.files w' = APNewsCollector.files w /\
    APNewsCollector.page w' = APNewsCollector.page w /\
    APNewsCollector.readings w' = S (APNewsCollector.readings w) /\
    APNewsCollector.log w' =
      APNewsCollector.Listed APNewsCollector.RESULT_ITEMS :: APNewsCollector.log w.
Proof.
  cbn [APNewsCollector.get_news_loop].
  destruct (Z.gtb_spec remaining_faults 0); [|lia].
  change (APNewsCollector.page
            (APNewsCollector.note
               (APNewsCollector.Listed APNewsCollector.RESULT_ITEMS) w))
    with (APNewsCollector.page w).
  rewrite Hitems. cbn [APNewsCollector.visit_all].
  rewrite BudgetFacts.visit_late by (left; exact Hlate).
  eexists. split; [reflexivity|]. cbn. repeat split.
Qed.

Lemma deadline_witness :
  let env := Double.env 1716200000 in
  let c := APNewsCollector.init env (u "economy") [] 1 (u "Newest") 0 in
  let item := Double.article "Economy grows" "" 1716199995000 in
  let br := Double.browser [([item], "1 of 2"%string)] [] in
  exists w',
    APNewsCollector.get_news_loop env 1 c 5 (APNewsCollector.start br) =
      (APNewsCollector.Done, (5%Z, w')) /\
    APNewsCollector.worksheet w' = [].
Proof.
  intros env c item br.
  destruct (deadline_stops_mid_page env br 0 c 5 (APNewsCollector.start br) item [])
    as (w' & E & Hws & _).
  - reflexivity.
  - reflexivity.
  - vm_compute. intros H. discriminate H.
  - exists w'. split; [exact E | exact Hws].
Defined.

(** X9: five items in a row that do not qualify (no date, or too old),
    met with a full budget before the deadline, bring the budget to 0: the
    [for] loop returns at the sixth element, which is never extracted, and
    the worksheet is as it was. *)
Theorem consecutive_misses_exhaust_budget (env : Env) (br : Browser)
    (c : APNewsCollector.t) (bad : list WebElement) (next : WebElement)
    (rest : list WebElement) (w : APNewsCollector.world br)
    (Hcount : length bad = 5)
    (Hclock : forall i, i < 5 ->
       (clock env (APNewsCollector.readings w + i) < APNewsCollector.timeout c)%Z)
    (Hpresent : Forall (fun el =>
       page_contains_element br el (APNewsCollector.page w) = true) bad)
    (Hmiss : Forall (fun el =>
       ~ Probe.qualifies env c
           (fst (News.make env el (APNewsCollector.search_phrase c)))) bad) :
  exists w',
    APNewsCollector.visit_all env c (bad ++ next :: rest)
      APNewsCollector.FAULTS_TOLERANCE w = (APNewsCollector.Return, (0%Z, w')) /\
    APNewsCollector.worksheet w' = APNewsCollector.worksheet w /\
    APNewsCollector.readings w' = APNewsCollector.readings w + 6 /\
    Probe.extracted (APNewsCollector.log w') =
      rev (map (fun el => fst (News.make env el (APNewsCollector.search_phrase c))) bad)
      ++ Probe.extracted (APNewsCollector.log w).
Proof.
  destruct (BudgetFacts.misses_exhaust env br c bad APNewsCollector.FAULTS_TOLERANCE
              w next rest) as (w' & E & Hws & Hrd & Hex).
  - rewrite Hcount. reflexivity.
  - intros i Hi. apply Hclock. lia.
  - exact Hpresent.
  - exact Hmiss.
  - exists w'. rewrite Hcount in Hrd.
    split; [exact E|]. split; [exact Hws|]. split; [lia | exact Hex].
Qed.

Lemma consecutive_misses_witness :
  let env := Double.env 1716200000 in
  let c := APNewsCollector.init env (u "economy") [] 1 (u "Newest") 170 in
  let fresh := Double.article "Economy grows" "" 1716199995000 in
  let old := Double.article "Economy shrank" "" 1700000000000 in
  let bad := [Double.undated "Economy"; old; old; Double.undated "Economy"; old] in
  let br := Double.browser [(bad ++ [fresh; fresh], "1 of 3"%string)] [] in
  exists w',
    APNewsCollector.visit_all env c (bad ++ [fresh; fresh])
      APNewsCollector.FAULTS_TOLERANCE (APNewsCollector.start br) =
      (APNewsCollector.Return, (0%Z, w')) /\
    APNewsCollector.worksheet w' = [].
Proof.
  intros env c fresh old bad br.
  destruct (consecutive_misses_exhaust_budget env br c bad fresh [fresh]
              (APNewsCollector.start br)) as (w' & E & Hws & _).
  - reflexivity.
  - intros i Hi.
    assert (Hcases : i = 0 \/ i = 1 \/ i = 2 \/ i = 3 \/ i = 4) by lia.
    destruct Hcases as [-> | [-> | [-> | [-> | ->]]]]; vm_compute; reflexivity.
  - repeat constructor.
  - repeat constructor; intros [Hd Hm]; vm_compute in Hd, Hm;
      first [now apply Hd | now apply Hm].
  - exists w'. split; [exact E | exact Hws].
Defined.

(** X10: the picture file of an extracted element is written before the
    item is judged: it is on disk whether the item is persisted or not, so
    an item that is skipped leaves its picture behind and no row. *)
Theorem picture_is_written_before_the_item_is_judged (env : Env) (br : Browser)
    (c : APNewsCollector.t) (element : WebElement) (remaining_faults : Z)
    (w : APNewsCollector.world br)
    (Hdeadline : (clock env (APNewsCollector.readings w) < APNewsCollector.timeout c)%Z)
    (Hbudget : remaining_faults <> 0%Z)
    (Hpresent : page_contains_element br element (APNewsCollector.page w) = true) :
  let after := snd (snd (APNewsCollector.visit env c element remaining_faults w)) in
  APNewsCollector.files after =
    match News.pic_file (News.get_picture element) with
    | Some file => file :: APNewsCollector.files w
    | None => APNewsCollector.files w
    end /\
  (~ Probe.qualifies env c (fst (News.make env element (APNewsCollector.search_phrase c))) ->
   APNewsCollector.worksheet after = APNewsCollector.worksheet w).
Proof.
  intros after. split.
  - unfold after. rewrite LoopFacts.visit_item by assumption. cbv zeta.
    change (snd (News.make env element (APNewsCollector.search_phrase c)))
      with (News.pic_file (News.get_picture element)).
    generalize (fst (News.make env element (APNewsCollector.search_phrase c))).
    intros news. generalize (News.pic_file (News.get_picture element)). intros file.
    destruct (negb _); [destruct file; reflexivity|].
    destruct (_ >? _)%Z; destruct file; reflexivity.
  - intros Hmiss.
    destruct (BudgetFacts.visit_miss env br c element remaining_faults w
                Hdeadline Hbudget Hpresent Hmiss) as (w' & E & Hws & _).
    unfold after. now rewrite E.
Qed.

Lemma picture_of_skipped_item_witness :
  let env := Double.env 1716200000 in
  let c := APNewsCollector.init env (u "economy") [] 1 (u "Newest") 170 in
  let item := Double.flaky_image 1 (Found [x89; x50; x4e; x47]) in
  let br := Double.browser [([item], "1 of 1"%string)] [] in
  let after := snd (snd (APNewsCollector.visit env c item 5 (APNewsCollector.start br))) in
  APNewsCollector.files after =
    [(output_path (News.picture_name [x89; x50; x4e; x47]), [x89; x50; x4e; x47])] /\
  APNewsCollector.worksheet after = [].
Proof.
  intros env c item br after.
  destruct (picture_is_written_before_the_item_is_judged env br c item 5
              (APNewsCollector.start br)) as [Hfiles Hws].
  - vm_compute. reflexivity.
  - intros H. discriminate H.
  - reflexivity.
  - split; [exact Hfiles|]. apply Hws. intros [_ Hm]. vm_compute in Hm. now apply Hm.
Defined.

(** X11: the deadline is only looked at inside the [for] loop.  While the
    browser stays on pages with no result element whose counts say there is
    a next page, [__get_news] never reads the clock and never returns: it
    is still running after any number of pages. *)
Theorem empty_pages_never_check_the_deadline (env : Env) (br : Browser)
    (c : APNewsCollector.t) (stuck : session br -> Prop)
    (Hempty : forall p, stuck p ->
       get_webelements br APNewsCollector.RESULT_ITEMS p = [])
    (Hcounts : forall p, stuck p ->
       exists current total,
         PyStr.split (get_webelement_text br APNewsCollector.PAGE_COUNTS p) (u " of ") =
           PyStr.SplitOk [current; total] /\
         PyStr.lt current total = true)
    (Hclick : forall p, stuck p ->
       stuck (@APNewsCollector.secure_loop br APNewsCollector.ATTEMPTS
                (click_element br (Css APNewsCollector.NEXT_PAGE)) p))
    (fuel : nat) (w : APNewsCollector.world br)
    (Hstuck : stuck (APNewsCollector.page w)) :
  exists w',
    APNewsCollector.get_news env fuel c w =
      (APNewsCollector.OutOfFuel, (APNewsCollector.FAULTS_TOLERANCE, w')) /\
    APNewsCollector.readings w' = APNewsCollector.readings w /\
    APNewsCollector.worksheet w' = APNewsCollector.worksheet w.
Proof.
  unfold APNewsCollector.get_news.
  assert (H : forall fuel (w0 : APNewsCollector.world br),
    stuck (APNewsCollector.page w0) ->
    exists w',
      APNewsCollector.get_news_loop env fuel c APNewsCollector.FAULTS_TOLERANCE w0 =
        (APNewsCollector.OutOfFuel, (APNewsCollector.FAULTS_TOLERANCE, w')) /\
      APNewsCollector.readings w' = APNewsCollector.readings w0 /\
      APNewsCollector.worksheet w' = APNewsCollector.worksheet w0).
  { clear fuel w Hstuck. induction fuel as [|f IH]; intros w0 Hw0.
    - eexists. cbn. repeat split.
    - cbn [APNewsCollector.get_news_loop].
      change (APNewsCollector.FAULTS_TOLERANCE >? 0)%Z with true. cbv iota.
      change (APNewsCollector.page
                (APNewsCollector.note
                   (APNewsCollector.Listed APNewsCollector.RESULT_ITEMS) w0))
        with (APNewsCollector.page w0).
      rewrite (Hempty _ Hw0). cbn [APNewsCollector.visit_all].
      change (APNewsCollector.page
                (APNewsCollector.note
                   (APNewsCollector.Listed APNewsCollector.RESULT_ITEMS) w0))
        with (APNewsCollector.page w0).
      destruct (Hcounts _ Hw0) as (current & total & -> & ->).
      destruct (IH (APNewsCollector.secure_click_element
                      (Css APNewsCollector.NEXT_PAGE)
                      (APNewsCollector.note
                         (APNewsCollector.Listed APNewsCollector.RESULT_ITEMS) w0)))
        as (w' & E & Hrd & Hws).
      + cbn. apply Hclick, Hw0.
      + exists w'. split; [exact E|]. split; [exact Hrd | exact Hws]. }
  destruct (H fuel (APNewsCollector.note
                      (APNewsCollector.Faults APNewsCollector.FAULTS_TOLERANCE) w))
    as (w' & E & Hrd & Hws); [exact Hstuck|].
  exists w'. split; [exact E|]. split; [exact Hrd | exact Hws].
Qed.

Lemma empty_pages_witness :
  let env := Double.env 1716200000 in
  let c := APNewsCollector.init env (u "economy") [] 1 (u "Newest") 0 in
  let br := Probe.frozen [] "1 of 2" in
  exists w',
    APNewsCollector.get_news env 1000 c (APNewsCollector.start br) =
      (APNewsCollector.OutOfFuel, (APNewsCollector.FAULTS_TOLERANCE, w')) /\
    APNewsCollector.readings w' = 1 /\
    APNewsCollector.worksheet w' = [].
Proof.
  intros env c br.
  apply (empty_pages_never_check_the_deadline env br c (fun _ => True)).
  - intros p _. reflexivity.
  - intros p _. exists (u "1"), (u "2"). split; reflexivity.
  - intros p _. exact I.
  - exact I.
Defined.

(** ** The resilient actions *)

Module ActionFacts.
Import APNewsCollector.

Section Counted.
Variable br : Browser.
Variable action : session br -> session br * option action_error.

Lemma check_modals_counted (p : session br) (n : nat) :
  @check_modals (Probe.counted br) (p, n) = (@check_modals br p, n).
Proof.
  unfold check_modals. cbn.
  destruct (is_element_visible br ONE_TRUST_ACCEPT_BTN p); cbn;
    destruct (is_element_visible br FANCYBOX_CLOSE_ANCHOR _); reflexivity.
Qed.

Lemma secure_loop_counted : forall attempts (p : session br) (n : nat),
  let r := @secure_loop (Probe.counted br) attempts (Probe.count_calls action) (p, n) in
  fst r = @secure_loop br attempts action p /\
  n <= snd r <= n + attempts /\
  (0 < attempts -> n < snd r) /\
  (0 < attempts -> snd (action p) = None -> snd r = n + 1 /\ fst r = fst (action p)) /\
  ((forall q, snd (action q) <> None) -> snd r = n + attempts).
Proof.
  induction attempts as [|a IH]; intros p n r.
  - cbn in r. subst r. cbn. repeat split; lia.
  - assert (Hr : @secure_loop (Probe.counted br) (S a) (Probe.count_calls action) (p, n) =
                 match action p with
                 | (p', None) => (p', S n)
                 | (p', Some ElementClickIntercepted) =>
                   @secure_loop (Probe.counted br) a (Probe.count_calls action)
                     (@check_modals br p', S n)
                 | (p', Some _) =>
                   @secure_loop (Probe.counted br) a (Probe.count_calls action) (p', S n)
                 end).
    { cbn [secure_loop]. unfold Probe.count_calls at 1. cbn [fst snd].
      destruct (action p) as [p' [[]|]]; rewrite ?check_modals_counted; reflexivity. }
    subst r. rewrite Hr. clear Hr. cbn [secure_loop].
    destruct (action p) as [p' [e|]] eqn:E.
    + assert (Hgo : forall q : session br,
        let r := @secure_loop (Probe.counted br) a (Probe.count_calls action) (q, S n) in
        n <= snd r <= n + S a /\ (0 < S a -> n < snd r) /\
        (0 < S a -> snd (p', Some e) = None -> snd r = n + 1 /\ fst r = fst (p', Some e)) /\
        ((forall q, snd (action q) <> None) -> snd r = n + S a)).
      { intros q r. destruct (IH q (S n)) as (_ & Hb & _ & _ & Hall). fold r in Hb, Hall.
        split; [lia|]. split; [lia|]. split; [intros _ H; discriminate H|].
        intros H. specialize (Hall H). lia. }
      destruct e.
      * destruct (IH (@check_modals br p') (S n)) as (Hf & _).
        split; [exact Hf|]. apply Hgo.
      * destruct (IH p' (S n)) as (Hf & _). split; [exact Hf|]. apply Hgo.
      * destruct (IH p' (S n)) as (Hf & _). split; [exact Hf|]. apply Hgo.
    + cbn. split; [reflexivity|]. split; [lia|]. split; [lia|].
      split; [intros _ _; split; [lia | reflexivity]|].
      intros H. exfalso. apply (H p). now rewrite E.
Qed.

End Counted.
End ActionFacts.

(** X12: a resilient action calls the Selenium action it wraps at least
    once and at most five times: once if the first call succeeds, five
    times if every call raises; counting the calls does not change the
    session it ends in.  The three wrappers share the loop. *)
Theorem resilient_actions_try_at_most_five_times (br : Browser)
    (action : session br -> session br * option action_error)
    (p : session br) (n : nat) :
  let r := @APNewsCollector.secure_loop (Probe.counted br) APNewsCollector.ATTEMPTS
             (Probe.count_calls action) (p, n) in
  fst r = @APNewsCollector.secure_loop br APNewsCollector.ATTEMPTS action p /\
  n + 1 <= snd r <= n + 5 /\
  (snd (action p) = None -> snd r = n + 1 /\ fst r = fst (action p)) /\
  ((forall q, snd (action q) <> None) -> snd r = n + 5) /\
  (forall (l : locator) (s : str),
      click_element (Probe.counted br) l = Probe.count_calls (click_element br l) /\
      input_text (Probe.counted br) l s = Probe.count_calls (input_text br l s) /\
      select_from_list_by_label (Probe.counted br) l s =
        Probe.count_calls (select_from_list_by_label br l s)).
Proof.
  intros r.
  destruct (ActionFacts.secure_loop_counted br action APNewsCollector.ATTEMPTS p n)
    as (Hf & Hb & Hpos & Hfirst & Hall).
  fold r in Hf, Hb, Hpos, Hfirst, Hall. unfold APNewsCollector.ATTEMPTS in *.
  split; [exact Hf|]. split; [specialize (Hpos ltac:(lia)); lia|].
  split; [intros H; apply Hfirst; [lia | exact H]|].
  split; [exact Hall|]. intros l s. repeat split.
Qed.

(** ** The category filter, for any categories *)

Module FilterClickFacts.
Import APNewsCollector.

Section Clicks.
Variable env : Env.
Variable br : Browser.

Lemma filter_loop_clicks : forall fuel (categories : gset str) (w w' : world br),
  filter_loop env fuel categories w = Some w' ->
  exists clicked,
    Probe.clicked_labels (log w') = clicked ++ Probe.clicked_labels (log w) /\
    NoDup (map (fun e => lower env (text e)) clicked) /\
    Forall (fun e => lower env (text e) ∈ categories) clicked /\
    length clicked <= size categories.
Proof.
  induction fuel as [|f IH]; intros categories w w'; cbn [filter_loop].
  - destruct (size categories =? 0)%nat; [|intros H; discriminate H].
    intros [= <-]. exists []. repeat split; [constructor | constructor | cbn; lia].
  - destruct (Nat.eqb_spec (size categories) 0) as [|Hpos].
    { intros [= <-]. exists []. repeat split; [constructor | constructor | cbn; lia]. }
    destruct (first_wanted _ _ _) as [[element element_text]|] eqn:E.
    2:{ intros [= <-]. exists []. repeat split; [constructor | constructor | cbn; lia]. }
    assert (Htext : element_text = lower env (text element)).
    { clear -E. revert E. generalize (get_webelements br FILTER_LABELS
        (page (note (Listed FILTER_LABELS) (secure_click_element (Css FILTER_HEADING) w)))).
      intros labels. induction labels as [|l labels IHl]; cbn [first_wanted];
        [intros H; discriminate H|].
      destruct (bool_decide _); [intros [= <- <-]; reflexivity | exact IHl]. }
    pose proof (FilterFacts.first_wanted_in env _ _ _ _ E) as Hin.
    intros H. apply IH in H. destruct H as (clicked & Hlog & Hnd & Hall & Hlen).
    exists (clicked ++ [element]). split; [|split; [|split]].
    + rewrite Hlog. cbn. now rewrite <- app_assoc.
    + rewrite map_app. apply NoDup_app. split; [exact Hnd|]. split; [|cbn; apply NoDup_singleton].
      intros t Ht Ht'. cbn in Ht'. apply list_elem_of_singleton in Ht'. subst t.
      apply list_elem_of_fmap in Ht as (e & He & Hine).
      rewrite Forall_forall in Hall. specialize (Hall e Hine).
      rewrite <- He, <- Htext in Hall. apply elem_of_difference in Hall as [_ Hne].
      apply Hne. now apply elem_of_singleton.
    + apply Forall_app. split.
      * eapply Forall_impl; [exact Hall|]. intros e He. cbn in He.
        now apply elem_of_difference in He as [He _].
      * constructor; [now rewrite <- Htext | constructor].
    + rewrite length_app. cbn.
      assert (Hsub : {[element_text]} ⊆ categories) by now apply singleton_subseteq_l.
      pose proof (size_difference _ _ Hsub) as Hd. rewrite size_singleton in Hd.
      assert (size categories <> 0) by exact Hpos. lia.
Qed.

End Clicks.

Lemma size_list_to_set_bound (l : list str) :
  size (list_to_set l : gset str) <= length l.
Proof.
  induction l as [|x l IH]; cbn [list_to_set length].
  - now rewrite size_empty.
  - rewrite size_union_alt, size_singleton.
    pose proof (subseteq_size (list_to_set l ∖ {[x]} : gset str) (list_to_set l)
                  ltac:(apply subseteq_difference_l; reflexivity)).
    lia.
Qed.

End FilterClickFacts.

(** X13: the category filter always ends; the labels it clicks have
    pairwise different lower-cased texts, each equal to the lower-cased
    form of one comma-separated piece of the categories string (taken as it
    is, not trimmed), so it clicks at most as many labels as there are
    pieces; it leaves the worksheet alone. *)
Theorem category_filter_clicks_each_requested_label_once (env : Env) (br : Browser)
    (c : APNewsCollector.t) (w : APNewsCollector.world br) :
  exists w' clicked pieces,
    APNewsCollector.filter_news env c w = Some w' /\
    PyStr.split (APNewsCollector.categories c) (u ",") = PyStr.SplitOk pieces /\
    Probe.clicked_labels (APNewsCollector.log w') =
      clicked ++ Probe.clicked_labels (APNewsCollector.log w) /\
    NoDup (map (fun e => lower env (text e)) clicked) /\
    Forall (fun e => exists piece,
              In piece pieces /\ lower env (text e) = lower env piece) clicked /\
    length clicked <= length pieces /\
    APNewsCollector.worksheet w' = APNewsCollector.worksheet w.
Proof.
  destruct (FilterFacts.filter_news_total env br c w) as [w' Hw'].
  pose proof Hw' as Hrun. unfold APNewsCollector.filter_news in Hw'.
  pose proof (SheetFacts.filter_loop_worksheet env br _ _ _ _ Hw') as Hws.
  apply FilterClickFacts.filter_loop_clicks in Hw'.
  destruct Hw' as (clicked & Hlog & Hnd & Hall & Hlen).
  exists w', clicked, (PyStr.split_scan (u ",") (APNewsCollector.categories c) 0 []).
  split; [exact Hrun|]. split; [reflexivity|].
  assert (Hsorted : forall w0 : APNewsCollector.world br,
    w0 = (if PyStr.truthy (APNewsCollector.sort_by c)
          then APNewsCollector.secure_select_from_list_by_label
                 (Css APNewsCollector.SORT_SELECT) (APNewsCollector.sort_by c) w
          else w) ->
    APNewsCollector.log w0 = APNewsCollector.log w /\
    APNewsCollector.worksheet w0 = APNewsCollector.worksheet w).
  { intros w0 ->. now destruct (PyStr.truthy _). }
  destruct (Hsorted _ eq_refl) as [Hlog0 Hws0].
  rewrite Hlog0 in Hlog. rewrite Hws0 in Hws.
  unfold APNewsCollector.category_set in Hall, Hlen. cbn [PyStr.split u] in Hall, Hlen.
  split; [exact Hlog|]. split; [exact Hnd|]. split; [|split; [|exact Hws]].
  - eapply Forall_impl; [exact Hall|]. intros e He. cbn in He.
    apply elem_of_list_to_set, list_elem_of_fmap in He as (piece & Hp & Hin).
    exists piece. split; [now apply list_elem_of_In | exact Hp].
  - etransitivity; [exact Hlen|].
    etransitivity; [apply FilterClickFacts.size_list_to_set_bound|]. now rewrite length_map.
Qed.

(** ** The task *)

